(** * Google-sheets-to-GeoJSON converter: a shallow embedding of [src/index.js]

    The development follows the source file top to bottom:

    - [JSString]: the string built-ins the script calls ([includes],
      [startsWith], [replace] with a string pattern, [replace] with the
      global regular expression [/\s/g], [toLowerCase]);
    - [JSNumber]: [parseFloat], on IEEE-754 binary64 numbers;
    - [JSObject]: plain objects as ordered own-property lists, and
      assignment to a property;
    - [Converter]: the GeoJSON values, and what the two loops of
      [convertAssociativeArrayToGeoJSON] leave in [properties];
    - [Effect]: a state and exception monad;
    - [Store]: [convertAssociativeArrayToGeoJSON] over an explicit object
      store, with the exceptions it raises and the cells it writes;
    - [Cache]: [fetchAndCacheData], [verifyCleanData] and the batch driver,
      over a file system and a trace of events;
    - [Examples]: concrete inputs.

    The properties follow the definitions, module by module; the modules
    named [...Claims] hold the statements about the script itself.

    A character of type [ascii] stands for the UTF-16 code unit of the same
    number, so the strings of this model are the JavaScript strings whose
    code units lie below 256.  On that range [toLowerCase] and the class
    [\s] are given in full. *)

From Stdlib Require Import ZArith NArith Ascii String List Bool Lia Sorted
  SpecFloat.
From stdpp Require Import base option list strings gmap.

Local Open Scope string_scope.
Local Open Scope list_scope.

(** ** Strings *)

Module JSString.

(** The class [\s] of ECMAScript regular expressions, and the characters
    [TrimString] strips: TAB, LF, VT, FF, CR, SPACE and NBSP are its
    members below 256. *)
Definition is_whitespace (c : ascii) : bool :=
  match N_of_ascii c with
  | 9 | 10 | 11 | 12 | 13 | 32 | 160 => true
  | _ => false
  end%N.

(** [s.startsWith(p)] *)
Fixpoint startsWith (s p : string) {struct p} : bool :=
  match p, s with
  | EmptyString, _ => true
  | String a p', String b s' => Ascii.eqb a b && startsWith s' p'
  | String _ _, EmptyString => false
  end.

(** [s.includes(needle)] *)
Fixpoint includes (s needle : string) : bool :=
  startsWith s needle ||
  match s with
  | EmptyString => false
  | String _ s' => includes s' needle
  end.

Fixpoint drop_chars (n : nat) (s : string) : string :=
  match n, s with
  | S n', String _ s' => drop_chars n' s'
  | _, _ => s
  end.

(** [s.replace(pat, rep)] where [pat] is a string: only the first
    occurrence of [pat] is replaced.  ([rep] holds no [$], so it is
    inserted as it is.) *)
Fixpoint replace (s pat rep : string) : string :=
  if startsWith s pat then rep +:+ drop_chars (String.length pat) s
  else match s with
       | EmptyString => EmptyString
       | String c s' => String c (replace s' pat rep)
       end.

(** [s.replace(/\s/g, rep)]: every whitespace character is replaced. *)
Fixpoint replace_whitespace_g (s rep : string) : string :=
  match s with
  | EmptyString => EmptyString
  | String c s' =>
      (if is_whitespace c then rep else String c EmptyString)
        +:+ replace_whitespace_g s' rep
  end.

(** Lower-casing of one code unit below 256: A-Z, and the Latin-1 capitals
    U+00C0-U+00DE without the multiplication sign U+00D7.  Each of them
    has a lower case of one code unit; the characters whose lower case is
    longer, such as U+0130, lie above this range. *)
Definition lower_char (c : ascii) : ascii :=
  let n := N_of_ascii c in
  if ((65 <=? n) && (n <=? 90) ||
      (192 <=? n) && (n <=? 222) && negb (n =? 215))%N
  then ascii_of_N (n + 32) else c.

(** [s.toLowerCase()] *)
Fixpoint toLowerCase (s : string) : string :=
  match s with
  | EmptyString => EmptyString
  | String c s' => String (lower_char c) (toLowerCase s')
  end.

(** What the words "with all whitespace removed" describe. *)
Fixpoint remove_whitespace (s : string) : string :=
  match s with
  | EmptyString => EmptyString
  | String c s' =>
      if is_whitespace c then remove_whitespace s'
      else String c (remove_whitespace s')
  end.

(** [needle] occurs in [s]. *)
Definition contains (s needle : string) : Prop :=
  exists before after, s = before +:+ needle +:+ after.

(** [s] with [f] applied to each character. *)
Fixpoint map_chars (f : ascii -> ascii) (s : string) : string :=
  match s with
  | EmptyString => EmptyString
  | String c s' => String (f c) (map_chars f s')
  end.

Fixpoint count_char (c : ascii) (s : string) : nat :=
  match s with
  | EmptyString => 0
  | String d s' => (if Ascii.eqb c d then 1 else 0) + count_char c s'
  end.

(** The line feed ["\n"]. *)
Definition newline : string := String (ascii_of_nat 10) EmptyString.

Fixpoint string_forallb (p : ascii -> bool) (s : string) : bool :=
  match s with
  | EmptyString => true
  | String c s' => p c && string_forallb p s'
  end.

End JSString.

(** ** Numbers *)

Module JSNumber.
Import JSString.

(** A Number is a binary64 float. *)
Definition number : Type := spec_float.
Definition NaN : number := S754_nan.

Definition prec : Z := 53.
Definition emax : Z := 1024.


Definition is_digit (c : ascii) : bool :=
  ((48 <=? N_of_ascii c) && (N_of_ascii c <=? 57))%N.

(** The longest run of decimal digits at the head of [s], and the rest. *)
Fixpoint span_digits (s : string) : string * string :=
  match s with
  | EmptyString => (EmptyString, EmptyString)
  | String c s' =>
      if is_digit c
      then let '(ds, rest) := span_digits s' in (String c ds, rest)
      else (EmptyString, s)
  end.

Fixpoint digits_value (acc : Z) (ds : string) : Z :=
  match ds with
  | EmptyString => acc
  | String c ds' =>
      digits_value (10 * acc + (Z.of_N (N_of_ascii c) - 48)) ds'
  end.

(** [TrimString(s, start)] *)
Fixpoint trim_start (s : string) : string :=
  match s with
  | EmptyString => EmptyString
  | String c s' => if is_whitespace c then trim_start s' else s
  end.

(** A parsed [StrDecimalLiteral]: [Infinity] or
    [digits . digits e exponent], each with its sign. *)
Inductive StrDecimalLiteral : Type :=
| Lit_Infinity (negative : bool)
| Lit_Decimal (negative : bool) (int_digits frac_digits : string)
              (exponent : Z).

Definition strip_sign (s : string) : bool * string :=
  match s with
  | String "+" s' => (false, s')
  | String "-" s' => (true, s')
  | _ => (false, s)
  end.

(** [ExponentPart], when one is there: [e] or [E], a sign, one digit at
    least.  Otherwise the literal ends before it and the exponent is 0. *)
Definition scan_exponent (s : string) : Z :=
  match s with
  | String c s1 =>
      if Ascii.eqb c "e" || Ascii.eqb c "E" then
        let '(neg, s2) := strip_sign s1 in
        let '(ds, _) := span_digits s2 in
        match ds with
        | EmptyString => 0
        | _ => if neg then - digits_value 0 ds else digits_value 0 ds
        end
      else 0
  | EmptyString => 0
  end%Z.

(** The longest prefix of [s] that is a [StrDecimalLiteral]. *)
Definition scan_literal (s : string) : option StrDecimalLiteral :=
  let '(neg, s1) := strip_sign s in
  if startsWith s1 "Infinity" then Some (Lit_Infinity neg)
  else
    let '(ip, s2) := span_digits s1 in
    match s2 with
    | String "." s3 =>
        let '(fp, s4) := span_digits s3 in
        match ip, fp with
        | EmptyString, EmptyString => None
        | _, _ => Some (Lit_Decimal neg ip fp (scan_exponent s4))
        end
    | _ =>
        match ip with
        | EmptyString => None
        | _ => Some (Lit_Decimal neg ip EmptyString (scan_exponent s2))
        end
    end.

(** The Number value of a literal: its mathematical value
    [m * 10 ^ e10], rounded to the nearest binary64, ties to even. *)
Definition literal_value (l : StrDecimalLiteral) : number :=
  match l with
  | Lit_Infinity neg => S754_infinity neg
  | Lit_Decimal neg ip fp e =>
      let m := digits_value 0 (ip +:+ fp) in
      let e10 := (e - Z.of_nat (String.length fp))%Z in
      match m with
      | Zpos p =>
          if (0 <=? e10)%Z
          then binary_round prec emax neg (p * Z.to_pos (10 ^ e10)) 0
          else
            let '(q, e', loc) :=
              SFdiv_core_binary prec emax (Zpos p) 0 (10 ^ (- e10)) 0 in
            binary_round_aux prec emax neg q e' loc
      | _ => S754_zero neg
      end
  end.

(** [parseFloat] on a string. *)
Definition parseFloat_string (s : string) : number :=
  match scan_literal (trim_start s) with
  | Some l => literal_value l
  | None => NaN
  end.

(** *** Vocabulary for statements about [parseFloat] *)


End JSNumber.


(** ** Plain objects *)

Module JSObject.
Import JSString JSNumber.

(** The primitive values a record field holds: the CSV parser, with
    [dynamicTyping], produces strings, numbers, booleans and [null];
    [undefined] is what reading an absent field gives. *)
Inductive value : Type :=
| VUndefined
| VNull
| VBool (b : bool)
| VNum (x : number)
| VStr (s : string).

(** [parseFloat(v)] is [parseFloat] on the string [ToString(v)].  For a
    Number, [ToString] prints the shortest decimal that reads back as the
    same Number, and prints both zeros as ["0"]; so the result is the
    Number itself, with the sign of a zero dropped. *)
Definition parseFloat (v : value) : number :=
  match v with
  | VNum (S754_zero _) => S754_zero false
  | VNum x => x
  | VStr s => parseFloat_string s
  | VUndefined => parseFloat_string "undefined"
  | VNull => parseFloat_string "null"
  | VBool true => parseFloat_string "true"
  | VBool false => parseFloat_string "false"
  end.

(** An object is the list of its own enumerable properties, in the order
    [for-in], [Object.keys] and [JSON.stringify] visit them. *)
Definition obj (V : Type) : Type := list (string * V).

(** An array index is the canonical decimal form of an integer between
    0 and 2^32 - 2. *)
Definition array_index (k : string) : option Z :=
  match k with
  | EmptyString => None
  | String c k' =>
      if string_forallb is_digit k &&
         (negb (Ascii.eqb c "0") || String.eqb k' EmptyString)
      then let n := digits_value 0 k in
           if (n <=? 4294967294)%Z then Some n else None
      else None
  end.

(** Own property keys are ordered: array indices first, in ascending
    numeric order, then the other keys in the order of their creation.
    [comes_before k k'] says that a new key [k] goes in front of an
    existing key [k']. *)
Definition comes_before (k k' : string) : bool :=
  match array_index k, array_index k' with
  | Some n, Some n' => (n <? n')%Z
  | Some _, None => true
  | None, _ => false
  end.

Section Operations.
Context {V : Type}.

Fixpoint obj_lookup (o : obj V) (k : string) : option V :=
  match o with
  | [] => None
  | (k', v) :: o' => if String.eqb k' k then Some v else obj_lookup o' k
  end.

(** [o.hasOwnProperty(k)], for an object that inherits the method from
    [Object.prototype]. *)
Definition hasOwnProperty (o : obj V) (k : string) : bool :=
  match obj_lookup o k with Some _ => true | None => false end.

(** Creating a property that is not there yet. *)
Fixpoint obj_define (o : obj V) (k : string) (v : V) : obj V :=
  match o with
  | [] => [(k, v)]
  | (k', v') :: o' =>
      if comes_before k k' then (k, v) :: o
      else (k', v') :: obj_define o' k v
  end.

(** Overwriting a property keeps its place. *)
Fixpoint obj_update (o : obj V) (k : string) (v : V) : obj V :=
  match o with
  | [] => []
  | (k', v') :: o' =>
      if String.eqb k' k then (k', v) :: o'
      else (k', v') :: obj_update o' k v
  end.

(** [o[k] = v] on the own properties of [o], when the assignment reaches
    them: the property is overwritten, or created. *)
Definition obj_set (o : obj V) (k : string) (v : V) : obj V :=
  if hasOwnProperty o k then obj_update o k v else obj_define o k v.

(** [Object.keys(o)], and the keys [for (const k in o)] visits. *)
Definition Object_keys (o : obj V) : list string := map fst o.

(** An object literal [{ k1: v1, ..., kn: vn }]: the properties are
    defined from left to right, a repeated key overwriting.  An entry
    written [__proto__: v] defines no property: it is the prototype it
    sets, when [v] is an object or [null], and the literals here hold
    strings and numbers. *)
Definition object_literal (entries : list (string * V)) : obj V :=
  foldl (fun o kv =>
           if String.eqb (fst kv) "__proto__" then o
           else obj_set o (fst kv) (snd kv))
        [] entries.
End Operations.

(** [o[k]] *)
Definition obj_get (o : obj value) (k : string) : value :=
  match obj_lookup o k with Some v => v | None => VUndefined end.

(** An object with what an assignment can change of it: its own
    properties, and its prototype, which is [Object.prototype] or
    [null]. *)
Record js_object : Type := {
  prototype_null : bool;
  fields : obj value
}.

Definition is_null (v : value) : bool :=
  match v with VNull => true | _ => false end.

(** [{}] *)
Definition empty_object : js_object :=
  {| prototype_null := false; fields := [] |}.

(** [o[k] = v], for a primitive [v].  [Object.prototype] has one setter,
    [__proto__].  An object that inherits it, and has no property of its
    own under that name, gets no property by the assignment
    [o.__proto__ = v]: its prototype becomes [null] when [v] is [null],
    and nothing happens for any other primitive.  Every other assignment
    writes the own property. *)
Definition assign (o : js_object) (k : string) (v : value) : js_object :=
  if String.eqb k "__proto__" && negb (prototype_null o)
       && negb (hasOwnProperty (fields o) k)
  then {| prototype_null := is_null v; fields := fields o |}
  else {| prototype_null := prototype_null o;
          fields := obj_set (fields o) k v |}.

(** *** Vocabulary for statements about key order *)







End JSObject.

(** ** The values and the loops of the feature converter *)

(** The GeoJSON values the routine returns, and what its two loops leave
    in [properties] for a record on which [hasOwnProperty] is the method
    inherited from [Object.prototype].  The routine itself, with the
    exceptions it raises, is [Store.convertAssociativeArrayToGeoJSON];
    [StoreRun.callback_run] relates its loops to the ones here. *)

Module Converter.
Import JSString JSNumber JSObject.

Record geometry : Type := {
  geometry_type : string;
  coordinates : list number
}.

(** [properties] holds the own fields of the object. *)
Record feature : Type := {
  feature_type : string;
  feature_geometry : geometry;
  properties : obj value
}.

Record crs_object : Type := {
  crs_type : string;
  crs_properties_name : string
}.

(** An element of [features] is a feature or [null]. *)
Record feature_collection : Type := {
  collection_type : string;
  name : string;
  crs : crs_object;
  features : list (option feature)
}.

Definition not_null {A : Type} (x : option A) : bool :=
  match x with Some _ => true | None => false end.

(** Both loops have one shape: the keys that pass [test] are copied from
    [item], by assignment, in the order they are visited. *)
Definition copy_loop (test : string -> bool) (item : obj value)
    (properties : js_object) (keys : list string) : js_object :=
  foldl (fun properties key =>
           if test key
           then assign properties key (obj_get item key)
           else properties)
        properties keys.

(** Lines 34-38: the [forEach] over [propertiesToInclude]. *)
Definition include_properties (item : obj value)
    (propertiesToInclude : list string) : js_object :=
  copy_loop (hasOwnProperty item) item empty_object propertiesToInclude.

(** Line 42: the test a key passes to be copied. *)
Definition copied (item : obj value) (latKey lngKey key : string) : bool :=
  hasOwnProperty item key && negb (String.eqb key latKey)
    && negb (String.eqb key lngKey) && negb (startsWith key "-").


(** Lines 41-45: the [for-in] over the record. *)
Definition other_properties (item : obj value) (latKey lngKey : string)
    : js_object :=
  copy_loop (copied item latKey lngKey) item empty_object
    (Object_keys item).

(** Lines 32-46: [properties] when the loop that runs is through. *)
Definition build_properties (latKey lngKey : string)
    (propertiesToInclude : list string) (item : obj value) : js_object :=
  if (0 <? length propertiesToInclude)%nat
  then include_properties item propertiesToInclude
  else other_properties item latKey lngKey.

(** Lines 28-29 and 50-53: the geometry of the feature. *)
Definition point (latKey lngKey : string) (item : obj value) : geometry :=
  let latitude := parseFloat (obj_get item latKey) in
  let longitude := parseFloat (obj_get item lngKey) in
  {| geometry_type := "Point"; coordinates := [longitude; latitude] |}.

End Converter.


(** ** Effects: a state and exception monad *)

Module Effect.

(** What a [throw] carries, as far as the script looks at it: the
    message.  [OutsideModel] is no JavaScript exception: it marks a run
    that left the values this development describes. *)
Inductive js_error : Type :=
| TypeError (message : string)
| FetchError (message : string)
| ENOENT (path : string)
| OutsideModel (what : string).

Definition error_message (e : js_error) : string :=
  match e with
  | TypeError m => m
  | FetchError m => m
  | ENOENT p => "ENOENT: no such file or directory, open '" +:+ p +:+ "'"
  | OutsideModel w => w
  end.

(** A computation over a state [S]: it ends with a value or an exception,
    and with the state it reached. *)
Definition M (S A : Type) : Type := S -> (js_error + A) * S.

Definition ret {S A : Type} (a : A) : M S A := fun s => (inr a, s).

Definition throw {S A : Type} (e : js_error) : M S A := fun s => (inl e, s).

Definition bind {S A B : Type} (m : M S A) (k : A -> M S B) : M S B :=
  fun s =>
    match m s with
    | (inl e, s') => (inl e, s')
    | (inr a, s') => k a s'
    end.

(** [try { m } catch (error) { handler error }] *)
Definition try_catch {S A : Type} (m : M S A) (handler : js_error -> M S A)
    : M S A :=
  fun s =>
    match m s with
    | (inl e, s') => handler e s'
    | (inr a, s') => (inr a, s')
    end.

Definition get_state {S : Type} : M S S := fun s => (inr s, s).
Definition modify {S : Type} (f : S -> S) : M S unit :=
  fun s => (inr tt, f s).

(** [for (const x of xs) { body x }] *)
Fixpoint for_of {S A : Type} (xs : list A) (body : A -> M S unit)
    : M S unit :=
  match xs with
  | [] => ret tt
  | x :: xs' => bind (body x) (fun _ => for_of xs' body)
  end.

(** [xs.map(f)], the elements visited from left to right. *)
Fixpoint map_M {S A B : Type} (f : A -> M S B) (xs : list A)
    : M S (list B) :=
  match xs with
  | [] => ret []
  | x :: xs' =>
      bind (f x) (fun y => bind (map_M f xs') (fun ys => ret (y :: ys)))
  end.

End Effect.

Declare Scope js_scope.
Delimit Scope js_scope with js.
Notation "'let*' x ':=' m 'in' k" :=
  (Effect.bind m (fun x => k))
  (at level 10, x name, m at level 100, k at level 200) : js_scope.
Notation "m ';;' k" :=
  (Effect.bind m (fun _ => k))
  (at level 100, k at level 200, right associativity) : js_scope.

(** ** The converter over an object store *)

Module Store.
Import JSString JSNumber JSObject Converter Effect.
Local Open Scope js_scope.

(** A location is the index of a cell in the store. *)
Notation loc := nat (only parsing).

(** An element of an array: a primitive value or a reference. *)
Inductive jsval : Type :=
| Prim (v : value)
| Ref (l : loc).

(** The store holds the objects the routine reads and builds: records
    and [properties] objects, whose fields are primitive, and arrays.
    [Obj] is an object that inherits from [Object.prototype], [Bare] one
    whose prototype is [null]. *)
Inductive cell : Type :=
| Obj (fields : obj value)
| Bare (fields : obj value)
| Arr (elems : list jsval).

Notation store := (list cell) (only parsing).

Definition alloc (c : cell) : M store loc :=
  fun st => (inr (length st), (st ++ [c])%list).

Definition read (l : loc) : M store cell :=
  fun st =>
    match st !! l with
    | Some c => (inr c, st)
    | None => (inl (OutsideModel "dangling reference"), st)
    end.

Definition write (l : loc) (c : cell) : M store unit :=
  modify (fun st => <[l := c]> st).

(** The object behind [item] in the access [item[key]] or [item.key].
    No property of [null] or [undefined] can be read. *)
Definition read_record (item : jsval) (key : string) : M store js_object :=
  match item with
  | Ref l =>
      let* c := read l in
      match c with
      | Obj o => ret {| prototype_null := false; fields := o |}
      | Bare o => ret {| prototype_null := true; fields := o |}
      | Arr _ => throw (OutsideModel "an array where a record is expected")
      end
  | Prim VUndefined =>
      throw (TypeError ("Cannot read properties of undefined (reading '"
                          +:+ key +:+ "')"))
  | Prim VNull =>
      throw (TypeError ("Cannot read properties of null (reading '"
                          +:+ key +:+ "')"))
  | Prim _ => throw (OutsideModel "a primitive where a record is expected")
  end.

Definition read_array (l : loc) : M store (list jsval) :=
  let* c := read l in
  match c with
  | Arr elems => ret elems
  | _ => throw (OutsideModel "a record where an array is expected")
  end.

(** [item[key]].  A field the record does not own reads as [undefined]
    here; in the script it may read as a member of [Object.prototype],
    a function or an object, which [parseFloat] turns into [NaN] just as
    it does [undefined], and which is read nowhere else. *)
Definition get_property (item : jsval) (key : string) : M store value :=
  let* o := read_record item key in
  ret (obj_get (fields o) key).

(** [item.hasOwnProperty(key)]: the method is looked up on [item]
    first.  A field named [hasOwnProperty] holds a primitive, and an
    object whose prototype is [null] inherits no method: calling either
    throws. *)
Definition call_hasOwnProperty (item : jsval) (key : string)
    : M store bool :=
  let* o := read_record item "hasOwnProperty" in
  if prototype_null o || hasOwnProperty (fields o) "hasOwnProperty"
  then throw (TypeError "item.hasOwnProperty is not a function")
  else ret (hasOwnProperty (fields o) key).

(** The keys [for (const key in item)] visits: the own keys of an
    object, [Object.prototype] having no enumerable property; none for
    [null] and [undefined]. *)
Definition for_in_keys (item : jsval) : M store (list string) :=
  match item with
  | Ref l =>
      let* c := read l in
      match c with
      | Obj o | Bare o => ret (Object_keys o)
      | Arr _ => throw (OutsideModel "an array where a record is expected")
      end
  | Prim VUndefined | Prim VNull => ret []
  | Prim _ => throw (OutsideModel "a primitive where a record is expected")
  end.

(** [properties[key] = v], as [JSObject.assign] has it: an assignment to
    [__proto__] that reaches the setter of [Object.prototype] creates no
    property, and makes the prototype [null] when [v] is [null]. *)
Definition set_property (p : loc) (key : string) (v : value)
    : M store unit :=
  let* c := read p in
  match c with
  | Obj o =>
      if String.eqb key "__proto__" && negb (hasOwnProperty o key)
      then match v with
           | VNull => write p (Bare o)
           | _ => ret tt
           end
      else write p (Obj (obj_set o key v))
  | Bare o => write p (Bare (obj_set o key v))
  | Arr _ => throw (OutsideModel "an array where a record is expected")
  end.

(** An element of [propertiesToInclude] used as a property key. *)
Definition to_key (k : jsval) : M store string :=
  match k with
  | Prim (VStr s) => ret s
  | _ => throw (OutsideModel "a key that is not a string")
  end.

(** A feature whose [properties] object lives in the store.  The feature,
    its geometry and the collection are written once, when they are made,
    and are kept as values; [properties] is the object the loops fill. *)
Record feature_ref : Type := {
  ref_type : string;
  ref_geometry : geometry;
  properties_ref : loc
}.

Record collection_ref : Type := {
  ref_collection_type : string;
  ref_name : string;
  ref_crs : crs_object;
  features_ref : list (option feature_ref)
}.

(** Lines 26-55. *)
Definition callback (latKey lngKey : string) (propertiesToInclude : loc)
    (item : jsval) : M store (option feature_ref) :=
  let* lat := get_property item latKey in
  let latitude := parseFloat lat in
  let* lng := get_property item lngKey in
  let longitude := parseFloat lng in
  let* properties := alloc (Obj []) in
  let* included := read_array propertiesToInclude in
  (if (0 <? length included)%nat then
     for_of included (fun k =>
       let* key := to_key k in
       let* own := call_hasOwnProperty item key in
       if own then
         let* v := get_property item key in
         set_property properties key v
       else ret tt)
   else
     let* keys := for_in_keys item in
     for_of keys (fun key =>
       let* own := call_hasOwnProperty item key in
       if own && negb (String.eqb key latKey)
            && negb (String.eqb key lngKey) && negb (startsWith key "-")
       then
         let* v := get_property item key in
         set_property properties key v
       else ret tt));;
  ret (Some {| ref_type := "Feature";
               ref_geometry :=
                 {| geometry_type := "Point";
                    coordinates := [longitude; latitude] |};
               properties_ref := properties |}).

(** Lines 25-64.  [propertiesToInclude] is [None] when the argument is
    left out: the default [[]] is a new array. *)
Definition convertAssociativeArrayToGeoJSON (dataArray : loc)
    (latKey lngKey layer_name : string) (propertiesToInclude : option loc)
    : M store collection_ref :=
  let* included :=
    match propertiesToInclude with
    | Some l => ret l
    | None => alloc (Arr [])
    end in
  let* items := read_array dataArray in
  let* geojsonFeatures := map_M (callback latKey lngKey included) items in
  ret {| ref_collection_type := "FeatureCollection";
         ref_name := layer_name;
         ref_crs := {| crs_type := "name";
                       crs_properties_name :=
                         "urn:ogc:def:crs:OGC:1.3:CRS84" |};
         features_ref := List.filter not_null geojsonFeatures |}.

(** The own fields of the object at [l]. *)
Definition fields_at (st : store) (l : loc) : option (obj value) :=
  match st !! l with
  | Some (Obj o) | Some (Bare o) => Some o
  | _ => None
  end.

(** Reading a result back from the store. *)
Definition read_feature (st : store) (f : option feature_ref)
    : option (option feature) :=
  match f with
  | None => Some None
  | Some f =>
      match fields_at st (properties_ref f) with
      | Some o =>
          Some (Some {| feature_type := ref_type f;
                        feature_geometry := ref_geometry f;
                        properties := o |})
      | None => None
      end
  end.

Fixpoint read_features (st : store) (fs : list (option feature_ref))
    : option (list (option feature)) :=
  match fs with
  | [] => Some []
  | f :: fs' =>
      match read_feature st f, read_features st fs' with
      | Some x, Some xs => Some (x :: xs)
      | _, _ => None
      end
  end.

Definition read_collection (st : store) (c : collection_ref)
    : option feature_collection :=
  match read_features st (features_ref c) with
  | Some fs =>
      Some {| collection_type := ref_collection_type c;
              name := ref_name c;
              crs := ref_crs c;
              features := fs |}
  | None => None
  end.

(** *** Vocabulary for statements about the store *)

(** A record on which [hasOwnProperty] is the method inherited from
    [Object.prototype]: it has no field of that name. *)
Definition plain (o : obj value) : bool :=
  negb (hasOwnProperty o "hasOwnProperty").

(** The cell of an object. *)
Definition cell_of (o : js_object) : cell :=
  if prototype_null o then Bare (fields o) else Obj (fields o).

(** [m], started in a store of [n] cells or more, leaves the first [n]
    cells as they are, drops no cell, and returns a value in [Q]. *)
Definition framed {A : Type} (n : nat) (m : M store A) (Q : A -> Prop)
    : Prop :=
  forall st, n <= length st ->
    take n (snd (m st)) = take n st
    /\ length st <= length (snd (m st))
    /\ match fst (m st) with inr a => Q a | inl _ => True end.

Definition anything {A : Type} (a : A) : Prop := True.

(** The inputs are as the signature has them: [dataArray] holds
    references [ls] to the records [records], objects that inherit from
    [Object.prototype], none of which has a field named
    [hasOwnProperty]; and [propertiesToInclude] is left out or holds the
    strings [keys]. *)
Definition well_typed (st : store) (dataArray : loc) (ls : list loc)
    (records : list (obj value)) (propertiesToInclude : option loc)
    (keys : list string) : Prop :=
  st !! dataArray = Some (Arr (map Ref ls))
  /\ Forall2 (fun l item => st !! l = Some (Obj item)) ls records
  /\ Forall (fun item => plain item = true) records
  /\ match propertiesToInclude with
     | Some l => st !! l = Some (Arr (map (fun k => Prim (VStr k)) keys))
     | None => keys = []
     end.


(** The elements of an array of strings. *)
Definition key_values (keys : list string) : list jsval :=
  map (fun k => Prim (VStr k)) keys.

(** The [properties] object of a feature is none of the first [n]
    cells. *)
Definition built_after (n : nat) (f : option feature_ref) : Prop :=
  match f with
  | Some f => n <= properties_ref f
  | None => True
  end.

(** The features the callback returns for [records] when the store has
    [n] cells at the first call: the [properties] objects take the next
    locations, one after the other. *)
Fixpoint feature_refs (latKey lngKey : string) (n : nat)
    (records : list (obj value)) : list (option feature_ref) :=
  match records with
  | [] => []
  | item :: records' =>
      Some {| ref_type := "Feature";
              ref_geometry := point latKey lngKey item;
              properties_ref := n |}
        :: feature_refs latKey lngKey (S n) records'
  end.

End Store.

(** ** Fetching, caching, verifying *)

Module Cache.
Import JSString JSNumber JSObject Converter Effect Store.
Local Open Scope js_scope.

(** What the process does to the outside: requests, file accesses,
    console lines, exit. *)
Inductive event : Type :=
| Fetch (url : string)
| Write (path : string)
| Append (path : string)
| Read (path : string)
| Console (text : string)
| ConsoleError (message : string)
| Exit (code : Z).

Record world : Type := {
  files : gmap string string;
  trace : list event
}.

Definition emit (e : event) : M world unit :=
  modify (fun w => {| files := files w; trace := trace w ++ [e] |}).

(** [fs.writeFileSync(path, data)] *)
Definition writeFileSync (path data : string) : M world unit :=
  modify (fun w => {| files := <[path := data]> (files w);
                      trace := trace w ++ [Write path] |}).

(** [fs.appendFileSync(path, data)] *)
Definition appendFileSync (path data : string) : M world unit :=
  modify (fun w =>
    {| files := <[path := default "" (files w !! path) +:+ data]> (files w);
       trace := trace w ++ [Append path] |}).

(** [fs.readFileSync(path, 'utf8')] *)
Definition readFileSync (path : string) : M world string :=
  emit (Read path);;
  let* w := get_state in
  match files w !! path with
  | Some data => ret data
  | None => throw (ENOENT path)
  end.

Definition GOOGLESHEETURL : string :=
  "https://docs.google.com/spreadsheets/d/e/2PACX-1vQAjIaxmEf4dv9eGjASL9YSlVGJLsmvfggZpGApiUP4YD6uexFG4otpwy0wQAWUFW4De4Pz4QKy79yV/pub?single=true&output=csv&gid=".

(** Lines 99-121. *)
Definition dataSets_entries : list (string * string) :=
  [ ("0", "Fire Stations");
    ("867350358", "Police Stations");
    ("396287298", "Civil Supplies Godowns");
    ("2107086279", "Ambulances");
    ("410764449", "Apada Mitras");
    ("973534772", "Apada Sakhis");
    ("1309860234", "Cyclone Shelters");
    ("36114476", "Dam Levels");
    ("302060060", "Fire Appliances");
    ("392979524", "Heavy Machinery");
    ("495904604", "Hospitals");
    ("236724982", "MHA Units");
    ("1768104908", "Mutual Aid Agencies");
    ("443003227", "Panchayats");
    ("1689409318", "River Gauges");
    ("1786282296", "Schools");
    ("1929576986", "Tree Cutters");
    ("920360157", "Water Resources");
    ("0", "Capacity Building");
    ("0", "High Density Spaces");
    ("0", "Boats") ].

Definition dataSets : obj string := object_literal dataSets_entries.

(** The value of [array] at line 70, in a store of its own: the array,
    then the records it holds, each an object the parser made. *)
Definition parsed (array : list (obj value)) : list cell :=
  Arr (map Ref (seq 1 (length array))) :: map Obj array.

(** An exception raised in a call goes on in the caller. *)
Definition rethrow {A : Type} (result : js_error + A) : M world A :=
  match result with
  | inr a => ret a
  | inl e => throw e
  end.

Section Environment.
(** The directory of the script joined with ['data/']. *)
Variable CACHE_DIRECTORY : string.
(** [fetch(url)] followed by [response.text()]: the body, or the
    message of the rejection. *)
Variable fetch_text : string -> string + string.
(** [Papa.parse(csv, { header: true, dynamicTyping: true }).data] *)
Variable Papa_parse : string -> list (obj value).
(** [JSON.stringify(geojson, null, indent)] *)
Variable JSON_stringify : feature_collection -> nat -> string.
(** [new Date().toISOString()], as a function of the number of events
    so far, and [error.stack]. *)
Variable clock : nat -> string.
Variable stack_of : js_error -> string.

Definition LOG_FILE : string := CACHE_DIRECTORY +:+ "debug-log.txt".

(** Lines 14-23.  [data] is written when it is truthy: a string that
    is not empty. *)
Definition debugLog (message : string) (data : option string)
    : M world unit :=
  let* w := get_state in
  let timestamp := clock (length (trace w)) in
  let logMessage := "[" +:+ timestamp +:+ "] " +:+ message +:+ newline in
  let logMessage :=
    match data with
    | Some (String c d) => logMessage +:+ String c d +:+ newline
    | _ => logMessage
    end in
  emit (Console logMessage);;
  appendFileSync LOG_FILE logMessage.

Definition fetch (url : string) : M world string :=
  emit (Fetch url);;
  match fetch_text url with
  | inr body => ret body
  | inl message => throw (FetchError message)
  end.

(** Lines 70-71: the collection built from a sheet, read back with its
    [properties] objects, or the exception the converter throws. *)
Definition geojson_of (dataset csv : string)
    : js_error + feature_collection :=
  let array := Papa_parse csv in
  match convertAssociativeArrayToGeoJSON 0 "Latitude" "Longitude"
          (replace (toLowerCase dataset) " " "-") None (parsed array) with
  | (inr geojson, st) =>
      match read_collection st geojson with
      | Some collection => inr collection
      | None => inl (OutsideModel "dangling reference")
      end
  | (inl e, _) => inl e
  end.

(** Lines 66-76. *)
Definition fetchAndCacheData (dataset url : string) : M world unit :=
  let* csv := fetch url in
  let* geojson := rethrow (geojson_of dataset csv) in
  writeFileSync
    ((CACHE_DIRECTORY +:+ replace_whitespace_g dataset "-") +:+ ".csv")
    csv;;
  writeFileSync
    ((CACHE_DIRECTORY +:+ replace_whitespace_g dataset "-")
       +:+ ".geojson")
    (JSON_stringify geojson 2);;
  writeFileSync
    ((CACHE_DIRECTORY +:+ replace_whitespace_g dataset "-")
       +:+ ".min.geojson")
    (JSON_stringify geojson 0).

(** Lines 78-86.  [None] is the [undefined] the function returns when
    it falls off its end. *)
Definition verifyCleanData (filename : string)
    : M world (option string) :=
  let* data := readFileSync filename in
  if includes data "#REF!" then
    ret (Some ("#REF! found in " +:+ filename))
  else if includes data "Loading" then
    ret (Some ("Loading... found in " +:+ filename))
  else ret None.

(** Lines 88-93.  Directories are not modelled: a write creates its
    file. *)
Definition startup : M world unit :=
  writeFileSync LOG_FILE "";;
  debugLog "Debug logging initialized" None.

(** [dataSets[key]], used as a string right away.  A key that
    [Object.keys] gave is bound. *)
Definition dataSets_get (catalog : obj string) (key : string)
    : M world string :=
  match obj_lookup catalog key with
  | Some n => ret n
  | None =>
      throw (TypeError "Cannot read properties of undefined")
  end.

(** Lines 123-127. *)
Definition caching_phase (catalog : obj string) : M world unit :=
  for_of (Object_keys catalog) (fun key =>
    let* dataset := dataSets_get catalog key in
    fetchAndCacheData dataset (GOOGLESHEETURL +:+ key);;
    let* dataset := dataSets_get catalog key in
    debugLog ("Finished generating " +:+ dataset) None);;
  debugLog "File Caching finished" None.

(** Lines 129-134.  The warnings are collected in [errors], which
    nothing reads afterwards. *)
Fixpoint checking_loop (catalog : obj string) (keys : list string)
    (errors : list (option string)) : M world (list (option string)) :=
  match keys with
  | [] => ret errors
  | key :: keys' =>
      let* dataset := dataSets_get catalog key in
      let* warning :=
        verifyCleanData
          ((CACHE_DIRECTORY +:+ replace_whitespace_g dataset "-")
             +:+ ".csv") in
      let* dataset := dataSets_get catalog key in
      debugLog ("Finished checking " +:+ dataset) None;;
      checking_loop catalog keys' (errors ++ [warning])
  end.

Definition checking_phase (catalog : obj string)
    : M world (list (option string)) :=
  let* errors := checking_loop catalog (Object_keys catalog) [] in
  debugLog "File Checking finished" None;;
  ret errors.

(** The two loops over the bindings [(key, dataset)] of a catalog,
    without the lookups [dataSets[key]]. *)
Definition caching_bindings (bindings : list (string * string))
    : M world unit :=
  for_of bindings (fun binding =>
    fetchAndCacheData (snd binding) (GOOGLESHEETURL +:+ fst binding);;
    debugLog ("Finished generating " +:+ snd binding) None).

Fixpoint checking_bindings (bindings : list (string * string))
    (errors : list (option string)) : M world (list (option string)) :=
  match bindings with
  | [] => ret errors
  | binding :: bindings' =>
      let* warning :=
        verifyCleanData
          ((CACHE_DIRECTORY +:+ replace_whitespace_g (snd binding) "-")
             +:+ ".csv") in
      debugLog ("Finished checking " +:+ snd binding) None;;
      checking_bindings bindings' (errors ++ [warning])
  end.

(** Lines 97-141: the body run when the file is executed directly. *)
Definition batch (catalog : obj string) : M world unit :=
  try_catch
    (caching_phase catalog;;
     let* _ := checking_phase catalog in
     ret tt)
    (fun error =>
       debugLog ("ERROR: " +:+ error_message error)
                (Some (stack_of error));;
       emit (ConsoleError (error_message error));;
       emit (Exit 1)).

Definition script (executed_directly : bool) : M world unit :=
  startup;;
  if executed_directly then batch dataSets else ret tt.

End Environment.

End Cache.


(** ** Concrete inputs *)

Module Examples.
Import JSString JSNumber JSObject Converter Effect Store Cache.

(** The two records of the end-to-end scenario, as the parser hands them
    over: numeric cells are Numbers. *)
Definition alpha : obj value :=
  object_literal [ ("Latitude", VNum (parseFloat_string "20.5"));
                   ("Longitude", VNum (parseFloat_string "85.8"));
                   ("Name", VStr "Alpha") ].
Definition beta : obj value :=
  object_literal [ ("Latitude", VNum (parseFloat_string "21.0"));
                   ("Longitude", VNum (parseFloat_string "86.0"));
                   ("Name", VStr "Beta") ].



(** A sheet with a column named [hasOwnProperty]. *)
Definition shadowing : obj value :=
  object_literal [ ("Latitude", VNum (parseFloat_string "20.5"));
                   ("Longitude", VNum (parseFloat_string "85.8"));
                   ("hasOwnProperty", VStr "yes") ].









(** An environment: a cache directory; a server that answers every
    request with the same sheet; a parser that finds the two records of
    the scenario in it; a printer that prints the name of the collection
    and nothing else; a clock that stands still. *)
Definition demo_directory : string := "data/".
Definition demo_sheet : string := "Latitude,Longitude,Name".
Definition demo_fetch (url : string) : string + string := inr demo_sheet.
Definition demo_parse (csv : string) : list (obj value) := [alpha; beta].
Definition demo_stringify (geojson : feature_collection) (indent : nat)
    : string :=
  name geojson.
Definition demo_clock (n : nat) : string := "2024-01-01T00:00:00.000Z".

Definition empty_world : world := {| files := ∅; trace := [] |}.

(** A cache where the sheet of one dataset came out with both markers. *)
Definition dirty_world : world :=
  {| files := {[ "data/Boats.csv" := "Name,#REF!,Loading..." ]};
     trace := [] |}.

End Examples.

(** ** Further vocabulary and inputs *)

Module Vocabulary.
Import JSString JSNumber JSObject Converter Effect Store Cache Examples.

(** The default array of [propertiesToInclude], when the argument is left
    out. *)
Definition default_cells (propertiesToInclude : option nat) : list cell :=
  match propertiesToInclude with
  | Some _ => []
  | None => [Arr []]
  end.

(** The inputs are as the signature has them up to one element of
    [dataArray]: the array holds references [ls] to the plain records
    [records], then the element [bad], then [rest]. *)
Definition typed_until (st : list cell) (dataArray : nat) (ls : list nat)
    (records : list (obj value)) (bad : jsval) (rest : list jsval)
    (propertiesToInclude : option nat) (keys : list string) : Prop :=
  st !! dataArray = Some (Arr (map Ref ls ++ bad :: rest))
  /\ Forall2 (fun l item => st !! l = Some (Obj item)) ls records
  /\ Forall (fun item => plain item = true) records
  /\ match propertiesToInclude with
     | Some l => st !! l = Some (Arr (map (fun k => Prim (VStr k)) keys))
     | None => keys = []
     end.


(** A store whose array holds [alpha], then a record with a field named
    [hasOwnProperty], and an array of keys. *)
Definition with_shadowing : list cell :=
  [ Arr [Ref 1; Ref 2]; Obj alpha; Obj shadowing;
    Arr [Prim (VStr "Name")] ].

(** A store whose array holds the same record twice. *)
Definition twice_alpha : list cell := [ Arr [Ref 1; Ref 1]; Obj alpha ].

(** A server that is not reachable. *)
Definition demo_offline (url : string) : string + string :=
  inl "request failed".

(** A parser that finds a record with a field named [hasOwnProperty]
    between the two records of the scenario. *)
Definition demo_shadowing_parse (csv : string) : list (obj value) :=
  [alpha; shadowing; beta].

(** The three files [fetchAndCacheData] writes for a dataset. *)
Definition artifact_paths (CACHE_DIRECTORY dataset : string) : list string :=
  [ (CACHE_DIRECTORY +:+ replace_whitespace_g dataset "-") +:+ ".csv";
    (CACHE_DIRECTORY +:+ replace_whitespace_g dataset "-") +:+ ".geojson";
    (CACHE_DIRECTORY +:+ replace_whitespace_g dataset "-")
      +:+ ".min.geojson" ].

(** The requests, the files read and the exit codes of a trace, in
    order. *)
Definition requests (tr : list event) : list string :=
  omap (fun ev => match ev with Fetch url => Some url | _ => None end) tr.

Definition reads (tr : list event) : list string :=
  omap (fun ev => match ev with Read path => Some path | _ => None end) tr.

Definition exits (tr : list event) : list Z :=
  omap (fun ev => match ev with Exit code => Some code | _ => None end) tr.

(** The text [debugLog] prints, when [n] events came before. *)
Definition log_line (clock : nat -> string) (n : nat) (message : string)
    (data : option string) : string :=
  let logMessage := "[" +:+ clock n +:+ "] " +:+ message +:+ newline in
  match data with
  | Some (String c d) => logMessage +:+ String c d +:+ newline
  | _ => logMessage
  end.

(** The request and the [.csv] artifact of a binding of the catalog. *)
Definition binding_url (binding : string * string) : string :=
  GOOGLESHEETURL +:+ fst binding.

Definition binding_csv (CACHE_DIRECTORY : string)
    (binding : string * string) : string :=
  (CACHE_DIRECTORY +:+ replace_whitespace_g (snd binding) "-") +:+ ".csv".

(** A server that answers every request but the one for the tab
    [36114476]. *)
Definition demo_flaky (url : string) : string + string :=
  if String.eqb url (GOOGLESHEETURL +:+ "36114476")
  then inl "request failed"
  else inr demo_sheet.

Definition demo_stack (e : js_error) : string := "".

(** A server whose sheet for the tab [36114476] has a column named
    [hasOwnProperty], and a parser that finds it. *)
Definition demo_odd_fetch (url : string) : string + string :=
  if String.eqb url (GOOGLESHEETURL +:+ "36114476")
  then inr "Latitude,Longitude,hasOwnProperty"
  else inr demo_sheet.

Definition demo_odd_parse (csv : string) : list (obj value) :=
  if String.eqb csv "Latitude,Longitude,hasOwnProperty"
  then [shadowing]
  else [alpha; beta].

(** The request of a binding is answered, with a sheet from which the
    converter returns a collection. *)
Definition served (fetch_text : string -> string + string)
    (Papa_parse : string -> list (obj value)) (binding : string * string)
    : Prop :=
  exists csv geojson,
    fetch_text (binding_url binding) = inr csv
    /\ geojson_of Papa_parse (snd binding) csv = inr geojson.

Fixpoint last_char (s : string) : option ascii :=
  match s with
  | EmptyString => None
  | String c EmptyString => Some c
  | String _ s' => last_char s'
  end.

(** Every file of [w] is a file of [w']. *)
Definition files_kept (w w' : world) : Prop :=
  forall path, is_Some (files w !! path) -> is_Some (files w' !! path).

(** When the file [log] of [w] begins with [head], so does that of
    [w']. *)
Definition log_begins (log head : string) (w w' : world) : Prop :=
  (exists more, files w !! log = Some (head +:+ more)) ->
  exists more, files w' !! log = Some (head +:+ more).

(** The files of [w'] other than [log] are those of [w], with what they
    hold. *)
Definition others_unchanged (log : string) (w w' : world) : Prop :=
  forall path, path <> log -> files w' !! path = files w !! path.

(** Every run of [m] relates the world it starts in to the world it
    ends in by [R]. *)
Definition preserves {A : Type} (R : world -> world -> Prop)
    (m : M world A) : Prop :=
  forall w, R w (snd (m w)).

End Vocabulary.

(** * Properties *)

(** ** Objects *)

Module JSObjectFacts.
Import JSString JSNumber JSObject.

Ltac string_cases :=
  repeat match goal with
    | |- context [String.eqb ?a ?b] =>
        destruct (String.eqb_spec a b); subst; simpl in *
    | H : context [String.eqb ?a ?b] |- _ =>
        destruct (String.eqb_spec a b); subst; simpl in *
    end; try congruence.

Section Lookup.
Context {V : Type}.
Implicit Types (o : obj V) (k : string) (v : V).

Lemma hasOwnProperty_cons k' v o k :
  hasOwnProperty ((k', v) :: o) k
  = String.eqb k' k || hasOwnProperty o k.
Proof. unfold hasOwnProperty. simpl. by destruct (String.eqb k' k). Qed.




Lemma obj_lookup_update o k v k' :
  hasOwnProperty o k = true ->
  obj_lookup (obj_update o k v) k'
  = if String.eqb k k' then Some v else obj_lookup o k'.
Proof.
  induction o as [|[k0 v0] o IH]; [done|].
  rewrite hasOwnProperty_cons. simpl. intros Hown.
  destruct (String.eqb_spec k0 k) as [->|Hne]; simpl.
  - by destruct (String.eqb k k').
  - rewrite IH by done. string_cases.
Qed.

Lemma obj_lookup_define o k v k' :
  hasOwnProperty o k = false ->
  obj_lookup (obj_define o k v) k'
  = if String.eqb k k' then Some v else obj_lookup o k'.
Proof.
  induction o as [|[k0 v0] o IH]; [done|].
  rewrite hasOwnProperty_cons, orb_false_iff. intros [Hne Hown]. simpl.
  destruct (comes_before k k0); simpl; [done|].
  rewrite IH by done. string_cases.
Qed.

(** Reading after [o[k] = v]. *)
Lemma obj_lookup_set o k v k' :
  obj_lookup (obj_set o k v) k'
  = if String.eqb k k' then Some v else obj_lookup o k'.
Proof.
  unfold obj_set. destruct (hasOwnProperty o k) eqn:Hown.
  - by apply obj_lookup_update.
  - by apply obj_lookup_define.
Qed.

Lemma hasOwnProperty_set o k v k' :
  hasOwnProperty (obj_set o k v) k'
  = String.eqb k k' || hasOwnProperty o k'.
Proof.
  unfold hasOwnProperty at 1. rewrite obj_lookup_set.
  by destruct (String.eqb k k').
Qed.
End Lookup.


End JSObjectFacts.

(** ** The loops of the feature converter *)

Module ConverterFacts.
Import JSString JSNumber JSObject Converter JSObjectFacts.

(** An assignment under another key leaves a property as it is. *)
Lemma lookup_assign_other (o : js_object) key v k :
  key <> k ->
  obj_lookup (fields (assign o key v)) k = obj_lookup (fields o) k.
Proof.
  intros Hne%String.eqb_neq. unfold assign.
  destruct (String.eqb key "__proto__" && negb (prototype_null o)
              && negb (hasOwnProperty (fields o) key)); simpl; [done|].
  by rewrite obj_lookup_set, Hne.
Qed.







Section CopyLoop.
Variable test : string -> bool.
Variable item : obj value.
Hypothesis test_own :
  forall key, test key = true -> hasOwnProperty item key = true.


(** A key the loop does not visit keeps what it holds. *)
Lemma lookup_copy_loop_absent keys k : k ∉ keys -> forall properties,
  obj_lookup (fields (copy_loop test item properties keys)) k
  = obj_lookup (fields properties) k.
Proof.
  unfold copy_loop.
  induction keys as [|key keys IH]; intros Hk properties; simpl; [done|].
  apply not_elem_of_cons in Hk as [Hne Hk]. rewrite IH by done.
  destruct (test key); [|done]. by apply lookup_assign_other.
Qed.




End CopyLoop.






End ConverterFacts.

(** ** Key order of the objects the loops build *)

Module KeyOrderFacts.
Import JSString JSNumber JSObject Converter JSObjectFacts.

Section Keys.
Context {V : Type}.
Implicit Types (o : obj V) (k : string) (v : V).













End Keys.







Section CopyLoop.
Variable test : string -> bool.
Variable item : obj value.



End CopyLoop.

End KeyOrderFacts.

(** ** Strings *)

Module JSStringFacts.
Import JSString.

Lemma startsWith_prefix s p :
  startsWith s p = true <-> exists rest, s = p +:+ rest.
Proof.
  revert s. induction p as [|a p IH]; intros s; simpl.
  - split; [by exists s | done].
  - destruct s as [|b s]; simpl.
    + split; [done | by intros [? ?]].
    + rewrite andb_true_iff, Ascii.eqb_eq, IH. split.
      * intros [-> [rest ->]]. by exists rest.
      * intros [rest [= -> ->]]. split; [done | by exists rest].
Qed.

Lemma startsWith_app p rest : startsWith (p +:+ rest) p = true.
Proof. apply startsWith_prefix. by exists rest. Qed.

(** [includes] decides [contains]. *)
Lemma includes_contains s needle :
  includes s needle = true <-> contains s needle.
Proof.
  unfold contains. induction s as [|c s IH]; simpl.
  - rewrite orb_false_r, startsWith_prefix. split.
    + intros [rest Hs]. by exists EmptyString, rest.
    + intros [[|? ?] [after Hs]]; [by exists after | done].
  - rewrite orb_true_iff, startsWith_prefix, IH. split.
    + intros [[rest Hs] | (before & after & ->)].
      * by exists EmptyString, rest.
      * by exists (String c before), after.
    + intros [[|c' before] [after Hs]].
      * left. by exists after.
      * right. injection Hs as -> ->. by exists before, after.
Qed.

Lemma includes_not_contains s needle :
  includes s needle = false <-> ~ contains s needle.
Proof.
  rewrite <- includes_contains. by destruct (includes s needle).
Qed.

Lemma append_inj_l (p s1 s2 : string) : p +:+ s1 = p +:+ s2 -> s1 = s2.
Proof. induction p as [|c p IH]; simpl; [done|]. intros [= H]. auto. Qed.

(** [replace(/\s/g, '-')] changes characters one for one. *)
Lemma replace_whitespace_dash s :
  replace_whitespace_g s "-"
  = map_chars (fun c => if is_whitespace c then "-"%char else c) s.
Proof.
  induction s as [|c s IH]; simpl; [done|].
  rewrite IH. by destruct (is_whitespace c).
Qed.

Lemma length_map_chars f s : String.length (map_chars f s) = String.length s.
Proof. induction s as [|c s IH]; simpl; [done | by f_equal]. Qed.

Lemma no_whitespace_replaced s :
  string_forallb (fun c => negb (is_whitespace c))
    (replace_whitespace_g s "-") = true.
Proof.
  rewrite replace_whitespace_dash.
  induction s as [|c s IH]; simpl; [done|].
  rewrite IH, andb_true_r. by destruct (is_whitespace c) eqn:Hc; [|rewrite Hc].
Qed.

Lemma replace_space_cons c s :
  replace (String c s) " " "-"
  = if Ascii.eqb " " c then String "-" s
    else String c (replace s " " "-").
Proof.
  change (replace (String c s) " " "-")
    with (if Ascii.eqb " " c && true then String "-" s
          else String c (replace s " " "-")).
  by rewrite andb_true_r.
Qed.

Lemma count_char_cons c d s :
  count_char c (String d s)
  = ((if Ascii.eqb c d then 1 else 0) + count_char c s)%nat.
Proof. done. Qed.

(** [replace(' ', '-')] removes one space, the first, and no more. *)
Lemma count_space_replace s :
  count_char " " (replace s " " "-") = Nat.pred (count_char " " s).
Proof.
  induction s as [|c s IH]; [done|].
  rewrite replace_space_cons, count_char_cons.
  destruct (Ascii.eqb_spec " " c) as [<-|Hne].
  - done.
  - rewrite count_char_cons.
    destruct (Ascii.eqb_spec " " c); [done | exact IH].
Qed.

Lemma lower_char_space c : Ascii.eqb " " (lower_char c) = Ascii.eqb " " c.
Proof. by destruct c as [[] [] [] [] [] [] [] []]. Qed.

Lemma count_space_toLowerCase s :
  count_char " " (toLowerCase s) = count_char " " s.
Proof.
  induction s as [|c s IH]; [done|].
  change (toLowerCase (String c s))
    with (String (lower_char c) (toLowerCase s)).
  by rewrite !count_char_cons, lower_char_space, IH.
Qed.

Lemma append_cons c (s t : string) : String c s +:+ t = String c (s +:+ t).
Proof. done. Qed.

Lemma append_nil_r (s : string) : s +:+ "" = s.
Proof.
  induction s as [|c s IH]; [done|]. by rewrite append_cons, IH.
Qed.

Lemma append_assoc (s t u : string) : (s +:+ t) +:+ u = s +:+ (t +:+ u).
Proof.
  induction s as [|c s IH]; [done|]. by rewrite !append_cons, IH.
Qed.

End JSStringFacts.

(** ** Numbers *)

Module JSNumberFacts.
Import JSString JSNumber JSStringFacts.







End JSNumberFacts.

(** ** The converter over the store: what it leaves alone *)

Module StoreFrame.
Import JSString JSNumber JSObject Converter Effect Store.

Section Rules.
Context {A B : Type}.
Variable n : nat.

Lemma framed_ret (a : A) (Q : A -> Prop) : Q a -> framed n (ret a) Q.
Proof. intros HQ st Hn. simpl. auto. Qed.

Lemma framed_throw (e : js_error) (Q : A -> Prop) :
  framed n (throw e) Q.
Proof. intros st Hn. simpl. auto. Qed.

Lemma framed_bind (m : M store A) (k : A -> M store B)
    (Q : A -> Prop) (R : B -> Prop) :
  framed n m Q -> (forall a, Q a -> framed n (k a) R) ->
  framed n (bind m k) R.
Proof.
  intros Hm Hk st Hn. unfold bind.
  destruct (Hm st Hn) as (Htake & Hlen & HQ).
  destruct (m st) as [[e|a] st1]; simpl in *; [done|].
  destruct (Hk a HQ st1 ltac:(lia)) as (Htake' & Hlen' & HR).
  split; [congruence|]. split; [lia | done].
Qed.

Lemma framed_weaken (m : M store A) (Q Q' : A -> Prop) :
  framed n m Q -> (forall a, Q a -> Q' a) -> framed n m Q'.
Proof.
  intros Hm HQ st Hn. destruct (Hm st Hn) as (Htake & Hlen & Ha).
  split; [done|]. split; [done|].
  destruct (fst (m st)); auto.
Qed.
End Rules.

Lemma framed_alloc n c : framed n (alloc c) (fun l => n <= l).
Proof.
  intros st Hn. unfold alloc. cbn [fst snd].
  rewrite take_app_le by done. split; [done|]. split; [|done].
  rewrite length_app. lia.
Qed.

Lemma framed_read n l : framed n (read l) anything.
Proof.
  intros st Hn. unfold read, anything. case_match; simpl; auto.
Qed.

Lemma framed_write n l c : n <= l -> framed n (write l c) anything.
Proof.
  intros Hl st Hn. unfold write, modify. simpl.
  rewrite take_insert_ge, length_insert by done. unfold anything. auto.
Qed.

Lemma framed_read_record n item key :
  framed n (read_record item key) anything.
Proof.
  destruct item as [v|l]; simpl.
  - destruct v; by (apply framed_throw || apply framed_ret).
  - eapply framed_bind; [apply framed_read|].
    intros [o|o|elems] _; by (apply framed_throw || apply framed_ret).
Qed.

Lemma framed_for_in_keys n item : framed n (for_in_keys item) anything.
Proof.
  destruct item as [v|l]; simpl.
  - destruct v; by (apply framed_throw || apply framed_ret).
  - eapply framed_bind; [apply framed_read|].
    intros [o|o|elems] _; by (apply framed_throw || apply framed_ret).
Qed.

Lemma framed_read_array n l : framed n (read_array l) anything.
Proof.
  eapply framed_bind; [apply framed_read|].
  intros [o|o|elems] _; by (apply framed_throw || apply framed_ret).
Qed.

Lemma framed_get_property n item key :
  framed n (get_property item key) anything.
Proof.
  eapply framed_bind; [apply framed_read_record|].
  intros o _. by apply framed_ret.
Qed.

Lemma framed_call_hasOwnProperty n item key :
  framed n (call_hasOwnProperty item key) anything.
Proof.
  eapply framed_bind; [apply framed_read_record|].
  intros o _.
  destruct (prototype_null o || hasOwnProperty (fields o) "hasOwnProperty");
    by (apply framed_throw || apply framed_ret).
Qed.

Lemma framed_to_key n k : framed n (to_key k) anything.
Proof.
  destruct k as [[]|]; by (apply framed_throw || apply framed_ret).
Qed.

(** A write into an object that was built after the first [n] cells. *)
Lemma framed_set_property n p key v :
  n <= p -> framed n (set_property p key v) anything.
Proof.
  intros Hp. eapply framed_bind; [apply framed_read|].
  intros [o|o|elems] _; [|by apply framed_write|apply framed_throw].
  destruct (String.eqb key "__proto__" && negb (hasOwnProperty o key));
    [|by apply framed_write].
  destruct v; by (apply framed_write || apply framed_ret).
Qed.

Lemma framed_for_of {A : Type} n (xs : list A) (body : A -> M store unit) :
  (forall x, framed n (body x) anything) ->
  framed n (for_of xs body) anything.
Proof.
  intros Hbody. induction xs as [|x xs IH]; simpl.
  - by apply framed_ret.
  - eapply framed_bind; [apply Hbody|]. intros _ _. exact IH.
Qed.

Lemma framed_map_M {A B : Type} n (f : A -> M store B) (Q : B -> Prop)
    (xs : list A) :
  (forall x, framed n (f x) Q) -> framed n (map_M f xs) (Forall Q).
Proof.
  intros Hf. induction xs as [|x xs IH]; simpl.
  - by apply framed_ret.
  - eapply framed_bind; [apply Hf|]. intros y Hy.
    eapply framed_bind; [exact IH|]. intros ys Hys.
    apply framed_ret. by constructor.
Qed.

(** The callback writes into the object it has just made, and nowhere
    else. *)
Lemma framed_callback n latKey lngKey included item :
  framed n (callback latKey lngKey included item) (built_after n).
Proof.
  unfold callback.
  eapply framed_bind; [apply framed_get_property|]. intros lat _.
  eapply framed_bind; [apply framed_get_property|]. intros lng _.
  eapply framed_bind; [apply framed_alloc|]. intros p Hp.
  eapply framed_bind; [apply framed_read_array|]. intros keys _.
  eapply (framed_bind _ _ _ anything).
  - destruct (0 <? length keys)%nat.
    + apply framed_for_of. intros k.
      eapply framed_bind; [apply framed_to_key|]. intros key _.
      eapply framed_bind; [apply framed_call_hasOwnProperty|].
      intros [] _; [|by apply framed_ret].
      eapply framed_bind; [apply framed_get_property|]. intros v _.
      by apply framed_set_property.
    + eapply framed_bind; [apply framed_for_in_keys|]. intros own_keys _.
      apply framed_for_of. intros key.
      eapply framed_bind; [apply framed_call_hasOwnProperty|].
      intros own _.
      destruct (own && negb (String.eqb key latKey)
                  && negb (String.eqb key lngKey)
                  && negb (startsWith key "-")); [|by apply framed_ret].
      eapply framed_bind; [apply framed_get_property|]. intros v _.
      by apply framed_set_property.
  - intros _ _. by apply framed_ret.
Qed.

Lemma Forall_filter_not_null (Q : option feature_ref -> Prop) l :
  Forall Q l -> Forall Q (List.filter not_null l).
Proof.
  induction 1 as [|x l Hx Hl IH]; simpl; [constructor|].
  destruct (not_null x); [by constructor | done].
Qed.

Lemma framed_convert n dataArray latKey lngKey layer_name included :
  framed n
    (convertAssociativeArrayToGeoJSON dataArray latKey lngKey layer_name
       included)
    (fun c => Forall (built_after n) (features_ref c)).
Proof.
  unfold convertAssociativeArrayToGeoJSON.
  eapply (framed_bind _ _ _ anything).
  { destruct included; [by apply framed_ret|].
    eapply framed_weaken; [apply framed_alloc | done]. }
  intros l _.
  eapply framed_bind; [apply framed_read_array|]. intros items _.
  eapply framed_bind; [apply framed_map_M, framed_callback|].
  intros fs Hfs. apply framed_ret. simpl.
  by apply Forall_filter_not_null.
Qed.

End StoreFrame.

(** ** The converter over the store: what it computes *)

Module StoreRun.
Import JSString JSNumber JSObject Converter Effect Store Vocabulary.
Import JSObjectFacts ConverterFacts JSNumberFacts.

Lemma bind_inr {S A B : Type} (m : M S A) (k : A -> M S B) s a s' :
  m s = (inr a, s') -> bind m k s = k a s'.
Proof. unfold bind. by intros ->. Qed.

Lemma bind_inl {S A B : Type} (m : M S A) (k : A -> M S B) s e s' :
  m s = (inl e, s') -> bind m k s = (inl e, s').
Proof. unfold bind. by intros ->. Qed.

Lemma read_run (st : store) l c :
  st !! l = Some c -> read l st = (inr c, st).
Proof. unfold read. by intros ->. Qed.

Lemma read_record_run (st : store) l o key :
  st !! l = Some (Obj o) ->
  read_record (Ref l) key st
  = (inr {| prototype_null := false; fields := o |}, st).
Proof.
  intros Hl. unfold read_record.
  by rewrite (bind_inr _ _ _ _ _ (read_run _ _ _ Hl)).
Qed.

Lemma for_in_keys_run (st : store) l o :
  st !! l = Some (Obj o) ->
  for_in_keys (Ref l) st = (inr (Object_keys o), st).
Proof.
  intros Hl. unfold for_in_keys.
  by rewrite (bind_inr _ _ _ _ _ (read_run _ _ _ Hl)).
Qed.

Lemma read_array_run (st : store) l elems :
  st !! l = Some (Arr elems) -> read_array l st = (inr elems, st).
Proof.
  intros Hl. unfold read_array.
  by rewrite (bind_inr _ _ _ _ _ (read_run _ _ _ Hl)).
Qed.

Lemma get_property_run (st : store) l o key :
  st !! l = Some (Obj o) ->
  get_property (Ref l) key st = (inr (obj_get o key), st).
Proof.
  intros Hl. unfold get_property.
  by rewrite (bind_inr _ _ _ _ _ (read_record_run _ _ _ _ Hl)).
Qed.

Lemma call_hasOwnProperty_run (st : store) l o key :
  st !! l = Some (Obj o) -> hasOwnProperty o "hasOwnProperty" = false ->
  call_hasOwnProperty (Ref l) key st = (inr (hasOwnProperty o key), st).
Proof.
  intros Hl Hplain. unfold call_hasOwnProperty.
  rewrite (bind_inr _ _ _ _ _ (read_record_run _ _ _ _ Hl)).
  cbn [prototype_null fields orb]. by rewrite Hplain.
Qed.

(** The method call on a record with a field named [hasOwnProperty]. *)
Lemma call_hasOwnProperty_shadowed (st : store) l o key :
  st !! l = Some (Obj o) -> hasOwnProperty o "hasOwnProperty" = true ->
  call_hasOwnProperty (Ref l) key st
  = (inl (TypeError "item.hasOwnProperty is not a function"), st).
Proof.
  intros Hl Hshadow. unfold call_hasOwnProperty.
  rewrite (bind_inr _ _ _ _ _ (read_record_run _ _ _ _ Hl)).
  cbn [prototype_null fields orb]. by rewrite Hshadow.
Qed.

Lemma write_last (st : store) c c' :
  write (length st) c' (st ++ [c]) = (inr tt, (st ++ [c'])%list).
Proof.
  unfold write, modify. do 2 f_equal.
  rewrite <- (Nat.add_0_r (length st)). by rewrite insert_app_r.
Qed.

(** An assignment to a property of the object in the last cell of the
    store. *)
Lemma set_property_run (st : store) acc key v :
  set_property (length st) key v (st ++ [cell_of acc])
  = (inr tt, (st ++ [cell_of (assign acc key v)])%list).
Proof.
  unfold set_property.
  rewrite (bind_inr _ _ _ (cell_of acc) (st ++ [cell_of acc])%list)
    by (apply read_run; by rewrite list_lookup_middle).
  destruct acc as [[] o]; unfold cell_of, assign; cbn [prototype_null fields].
  - rewrite andb_false_r. cbn [andb]. apply write_last.
  - rewrite andb_true_r.
    destruct (String.eqb key "__proto__" && negb (hasOwnProperty o key));
      cbn [prototype_null fields]; [|apply write_last].
    destruct v; cbn [is_null]; by (apply write_last || done).
Qed.

Section Loops.
Variable st : store.
Variable l : loc.
Variable item : obj value.
Hypothesis Hitem : st !! l = Some (Obj item).
Hypothesis Hplain : plain item = true.

Lemma plain_method : hasOwnProperty item "hasOwnProperty" = false.
Proof.
  unfold plain in Hplain.
  by destruct (hasOwnProperty item "hasOwnProperty").
Qed.

Lemma lookup_item c : (st ++ [c]) !! l = Some (Obj item).
Proof. by apply lookup_app_l_Some. Qed.

(** The [forEach] of lines 34-38, run on the object at the end of the
    store. *)
Lemma forEach_run keys : forall acc,
  for_of (map (fun k => Prim (VStr k)) keys) (fun k =>
    bind (to_key k) (fun key =>
    bind (call_hasOwnProperty (Ref l) key) (fun own =>
    if own
    then bind (get_property (Ref l) key)
              (fun v => set_property (length st) key v)
    else ret tt)))
    (st ++ [cell_of acc])
  = (inr tt,
     (st ++ [cell_of (copy_loop (hasOwnProperty item) item acc keys)])%list).
Proof.
  induction keys as [|key keys IH]; intros acc; [done|].
  cbn [map for_of to_key copy_loop foldl].
  erewrite bind_inr; [apply IH|]. cbn [to_key].
  erewrite bind_inr by reflexivity.
  erewrite bind_inr
    by (apply call_hasOwnProperty_run;
        [apply lookup_item | apply plain_method]).
  destruct (hasOwnProperty item key) eqn:Hown; [|done].
  erewrite bind_inr by (apply get_property_run, lookup_item).
  apply set_property_run.
Qed.

(** The [for-in] of lines 41-45. *)
Lemma for_in_run latKey lngKey keys : forall acc,
  for_of keys (fun key =>
    bind (call_hasOwnProperty (Ref l) key) (fun own =>
    if own && negb (String.eqb key latKey)
         && negb (String.eqb key lngKey) && negb (startsWith key "-")
    then bind (get_property (Ref l) key)
              (fun v => set_property (length st) key v)
    else ret tt))
    (st ++ [cell_of acc])
  = (inr tt,
     (st ++ [cell_of (copy_loop (copied item latKey lngKey) item acc
                        keys)])%list).
Proof.
  induction keys as [|key keys IH]; intros acc; [done|].
  cbn [for_of copy_loop foldl].
  erewrite bind_inr; [apply IH|].
  erewrite bind_inr
    by (apply call_hasOwnProperty_run;
        [apply lookup_item | apply plain_method]).
  fold (copied item latKey lngKey key).
  destruct (copied item latKey lngKey key) eqn:Hcopied; [|done].
  erewrite bind_inr by (apply get_property_run, lookup_item).
  apply set_property_run.
Qed.
End Loops.

(** The callback on a plain record: one new cell, the [properties]
    object, holding what [build_properties] computes. *)
Lemma callback_run (st : store) l item included keys latKey lngKey :
  st !! l = Some (Obj item) -> plain item = true ->
  st !! included = Some (Arr (key_values keys)) ->
  callback latKey lngKey included (Ref l) st
  = (inr (Some {| ref_type := "Feature";
                  ref_geometry := point latKey lngKey item;
                  properties_ref := length st |}),
     st ++ [cell_of (build_properties latKey lngKey keys item)]).
Proof.
  intros Hitem Hplain Hkeys. unfold callback.
  erewrite bind_inr by (by apply get_property_run).
  erewrite bind_inr by (by apply get_property_run).
  erewrite bind_inr by (unfold alloc; reflexivity).
  erewrite bind_inr by (by apply read_array_run, lookup_app_l_Some).
  unfold build_properties, include_properties, other_properties, key_values.
  rewrite length_map.
  destruct (0 <? length keys)%nat.
  - erewrite bind_inr
      by exact (forEach_run st l item Hitem Hplain keys empty_object).
    done.
  - erewrite bind_inr; [reflexivity|].
    erewrite bind_inr by (by apply for_in_keys_run, lookup_app_l_Some).
    exact (for_in_run st l item Hitem Hplain latKey lngKey
             (Object_keys item) empty_object).
Qed.

(** The callback on a record with a field named [hasOwnProperty],
    whatever [propertiesToInclude] holds. *)
Lemma callback_shadowed (st : list cell) l item included keys latKey
    lngKey :
  st !! l = Some (Obj item) ->
  hasOwnProperty item "hasOwnProperty" = true ->
  st !! included = Some (Arr (key_values keys)) ->
  callback latKey lngKey included (Ref l) st
  = (inl (TypeError "item.hasOwnProperty is not a function"),
     st ++ [Obj []]).
Proof.
  intros Hitem Hshadow Hkeys. unfold callback.
  erewrite bind_inr by (by apply get_property_run).
  erewrite bind_inr by (by apply get_property_run).
  erewrite bind_inr by (unfold alloc; reflexivity).
  erewrite bind_inr by (by apply read_array_run, lookup_app_l_Some).
  erewrite bind_inl; [reflexivity|].
  unfold key_values. rewrite length_map.
  destruct keys as [|key keys]; cbn [length Nat.ltb Nat.leb].
  - erewrite bind_inr by (by apply for_in_keys_run, lookup_app_l_Some).
    destruct item as [|[k v] item]; [done|].
    cbn [Object_keys map fst for_of].
    erewrite bind_inl; [reflexivity|].
    erewrite bind_inl; [reflexivity|].
    apply (call_hasOwnProperty_shadowed _ _ ((k, v) :: item));
      [by apply lookup_app_l_Some | done].
  - cbn [map for_of to_key].
    erewrite bind_inl; [reflexivity|].
    erewrite bind_inr by reflexivity.
    erewrite bind_inl; [reflexivity|].
    apply (call_hasOwnProperty_shadowed _ _ item);
      [by apply lookup_app_l_Some | done].
Qed.

(** [dataArray.map] over plain records. *)
Lemma map_callback_run latKey lngKey included keys records :
  forall (ls : list loc) (st : store),
  Forall2 (fun l item => st !! l = Some (Obj item)) ls records ->
  Forall (fun item => plain item = true) records ->
  st !! included = Some (Arr (key_values keys)) ->
  map_M (callback latKey lngKey included) (map Ref ls) st
  = (inr (feature_refs latKey lngKey (length st) records),
     st ++ map (fun item =>
                  cell_of (build_properties latKey lngKey keys item))
               records).
Proof.
  induction records as [|item records IH]; intros ls st Hls Hplain Hkeys.
  - apply Forall2_nil_inv_r in Hls as ->. simpl.
    by rewrite app_nil_r.
  - apply Forall2_cons_inv_r in Hls as (l & ls' & Hl & Hls & ->).
    apply Forall_cons in Hplain as [Hitem Hplain].
    cbn [map map_M feature_refs].
    erewrite bind_inr by (by apply callback_run).
    erewrite bind_inr.
    2:{ apply IH; [|done|by apply lookup_app_l_Some].
        eapply Forall2_impl; [exact Hls|]. simpl. intros.
        by apply lookup_app_l_Some. }
    unfold ret. rewrite length_app, <- app_assoc. simpl.
    by rewrite Nat.add_1_r.
Qed.

(** [map] stops at the first element on which the callback throws. *)
Lemma map_M_throw {S A B : Type} (f : A -> M S B) (x : A) (rest : list A)
    e : forall (xs : list A) (s : S) ys s1 s2,
  map_M f xs s = (inr ys, s1) ->
  f x s1 = (inl e, s2) ->
  map_M f (xs ++ x :: rest) s = (inl e, s2).
Proof.
  induction xs as [|a xs IH]; intros s ys s1 s2 Hxs Hx; simpl in *.
  - injection Hxs as <- <-. unfold bind. by rewrite Hx.
  - unfold bind in *. destruct (f a s) as [[e'|y] sa]; [done|].
    destruct (map_M f xs sa) as [[e'|ys'] sb] eqn:Hrest; [done|].
    injection Hxs as <- <-.
    by rewrite (IH sa ys' sb s2 Hrest Hx).
Qed.

Lemma filter_feature_refs latKey lngKey records : forall n,
  List.filter not_null (feature_refs latKey lngKey n records)
  = feature_refs latKey lngKey n records.
Proof.
  induction records as [|item records IH]; intros n; simpl; [done|].
  by rewrite IH.
Qed.




Lemma properties_ref_feature_refs latKey lngKey records : forall n,
  map (fmap properties_ref) (feature_refs latKey lngKey n records)
  = map Some (seq n (length records)).
Proof.
  induction records as [|item records IH]; intros n; simpl; [done|].
  by rewrite IH.
Qed.

Lemma fields_at_cell_of (st : store) l o :
  st !! l = Some (cell_of o) -> fields_at st l = Some (fields o).
Proof.
  unfold fields_at, cell_of. intros ->. by destruct (prototype_null o).
Qed.

(** Reading the features back from the cells the callback added. *)
Lemma read_feature_refs latKey lngKey keys records :
  forall (before : list cell),
  read_features
    (before ++ map (fun item =>
                      cell_of (build_properties latKey lngKey keys item))
                   records)
    (feature_refs latKey lngKey (length before) records)
  = Some (map (fun item =>
                 Some {| feature_type := "Feature";
                         feature_geometry := point latKey lngKey item;
                         properties :=
                           fields (build_properties latKey lngKey keys
                                     item) |})
              records).
Proof.
  induction records as [|item records IH]; intros before; [done|].
  cbn [map feature_refs read_features read_feature properties_ref].
  rewrite (fields_at_cell_of _ _ (build_properties latKey lngKey keys item))
    by (by rewrite list_lookup_middle).
  rewrite cons_middle, app_assoc.
  replace (S (length before))
    with (length (before ++ [cell_of (build_properties latKey lngKey keys
                                        item)]))
    by (rewrite length_app; simpl; lia).
  by rewrite IH.
Qed.

(** The routine on well-typed inputs, with the store it ends in: no
    exception; the store gains the [properties] objects, after the
    default array when [propertiesToInclude] is left out. *)
Lemma convert_run (st : list cell) dataArray ls records latKey lngKey
    layer_name included keys :
  well_typed st dataArray ls records included keys ->
  Store.convertAssociativeArrayToGeoJSON dataArray latKey lngKey layer_name
    included st
  = (inr {| ref_collection_type := "FeatureCollection";
            ref_name := layer_name;
            ref_crs := {| crs_type := "name";
                          crs_properties_name :=
                            "urn:ogc:def:crs:OGC:1.3:CRS84" |};
            features_ref :=
              feature_refs latKey lngKey
                (length (st ++ default_cells included)) records |},
     (st ++ default_cells included)
       ++ map (fun item =>
                 cell_of (build_properties latKey lngKey keys item))
              records).
Proof.
  intros (Hdata & Hls & Hplain & Hkeys).
  unfold Store.convertAssociativeArrayToGeoJSON.
  destruct included as [included|]; simpl default_cells.
  - rewrite app_nil_r.
    erewrite bind_inr by reflexivity.
    erewrite bind_inr by (by apply read_array_run).
    erewrite bind_inr by (by apply map_callback_run).
    unfold ret. by rewrite filter_feature_refs.
  - subst keys.
    erewrite bind_inr by (unfold alloc; reflexivity).
    erewrite bind_inr by (by apply read_array_run, lookup_app_l_Some).
    erewrite bind_inr.
    2:{ apply (map_callback_run _ _ _ []); [|done|].
        - eapply Forall2_impl; [exact Hls|]. simpl. intros.
          by apply lookup_app_l_Some.
        - by apply list_lookup_middle. }
    unfold ret. by rewrite filter_feature_refs.
Qed.


(** The routine when the callback throws on the element after well-typed
    ones. *)
Lemma convert_throw (st : list cell) dataArray ls records bad rest latKey
    lngKey layer_name included keys e :
  typed_until st dataArray ls records bad rest included keys ->
  (forall (st1 : list cell) l,
     (forall i c, (st ++ default_cells included) !! i = Some c ->
                  st1 !! i = Some c) ->
     st1 !! l = Some (Arr (key_values keys)) ->
     exists st2, callback latKey lngKey l bad st1 = (inl e, st2)) ->
  fst (Store.convertAssociativeArrayToGeoJSON dataArray latKey lngKey
         layer_name included st) = inl e.
Proof.
  intros (Hdata & Hls & Hplain & Hkeys) Hbad.
  unfold Store.convertAssociativeArrayToGeoJSON.
  destruct included as [included|]; simpl default_cells in Hbad.
  - rewrite app_nil_r in Hbad.
    erewrite bind_inr by reflexivity.
    erewrite bind_inr by (by apply read_array_run).
    destruct (Hbad (st ++ map (fun item =>
                                 cell_of (build_properties latKey lngKey
                                            keys item)) records) included)
      as [st2 Hthrow].
    { intros. by apply lookup_app_l_Some. }
    { by apply lookup_app_l_Some. }
    erewrite bind_inl; [reflexivity|].
    eapply map_M_throw; [|exact Hthrow].
    by apply map_callback_run.
  - subst keys.
    erewrite bind_inr by (unfold alloc; reflexivity).
    erewrite bind_inr by (by apply read_array_run, lookup_app_l_Some).
    destruct (Hbad ((st ++ [Arr []])
                      ++ map (fun item =>
                                cell_of (build_properties latKey lngKey []
                                           item)) records) (length st))
      as [st2 Hthrow].
    { intros. by apply lookup_app_l_Some. }
    { by apply lookup_app_l_Some, list_lookup_middle. }
    erewrite bind_inl; [reflexivity|].
    eapply map_M_throw; [|exact Hthrow].
    apply (map_callback_run _ _ _ []); [|done|].
    + eapply Forall2_impl; [exact Hls|]. simpl. intros.
      by apply lookup_app_l_Some.
    + by apply list_lookup_middle.
Qed.

(** The routine when a record with a field named [hasOwnProperty] stands
    after plain records. *)
Lemma convert_shadowed (st : list cell) dataArray ls records l item rest
    latKey lngKey layer_name included keys :
  typed_until st dataArray ls records (Ref l) rest included keys ->
  st !! l = Some (Obj item) ->
  hasOwnProperty item "hasOwnProperty" = true ->
  fst (Store.convertAssociativeArrayToGeoJSON dataArray latKey lngKey
         layer_name included st)
  = inl (TypeError "item.hasOwnProperty is not a function").
Proof.
  intros Htyped Hitem Hshadow.
  apply (convert_throw st dataArray ls records (Ref l) rest latKey lngKey
           layer_name included keys _ Htyped).
  intros st1 l' Hst1 Hkeys. eexists.
  apply (callback_shadowed st1 l item l' keys); [|done|done].
  apply Hst1. by apply lookup_app_l_Some.
Qed.


End StoreRun.

(** ** Claims on [convertAssociativeArrayToGeoJSON] *)

Module StoreClaims.
Import JSString JSNumber JSObject Converter Effect Store Examples Vocabulary.
Import JSObjectFacts ConverterFacts KeyOrderFacts StoreFrame StoreRun.





















(** C10. For every store and every call of the routine, whether it
    returns or throws: the store afterwards is the store before followed
    by new cells, so every record of [dataArray], the array itself and
    [propertiesToInclude] hold what they held; and the [properties] of
    every feature returned is one of the new cells. *)
Theorem inputs_left_unchanged
    (st : list cell) (dataArray : nat) (latKey lngKey layer_name : string)
    (propertiesToInclude : option nat) :
  let run :=
    Store.convertAssociativeArrayToGeoJSON dataArray latKey lngKey
      layer_name propertiesToInclude st in
  (exists new, snd run = st ++ new)
  /\ match fst run with
     | inr c => Forall (built_after (length st)) (features_ref c)
     | inl _ => True
     end.
Proof.
  intros run. subst run.
  destruct (framed_convert (length st) dataArray latKey lngKey layer_name
              propertiesToInclude st (le_n _)) as (Htake & Hlen & Hbuilt).
  split; [|done].
  rewrite firstn_all in Htake.
  set (st' := snd (Store.convertAssociativeArrayToGeoJSON dataArray
                     latKey lngKey layer_name propertiesToInclude st)) in *.
  exists (drop (length st) st').
  transitivity (take (length st) st' ++ drop (length st) st');
    [symmetry; apply take_drop | by rewrite Htake].
Qed.

End StoreClaims.

(** ** Fetching, caching, verifying *)

Module CacheFacts.
Import JSString JSNumber JSObject Converter Effect Store Cache Examples.
Import Vocabulary JSStringFacts StoreRun.

Lemma demo_parse_plain (csv : string) :
  Forall (fun item => plain item = true) (demo_parse csv).
Proof. by repeat constructor. Defined.

(** The array the parser made is an array of references to its
    records. *)
Lemma parsed_records (array : list (obj value)) : forall before : list cell,
  Forall2 (fun l item => (before ++ map Obj array) !! l = Some (Obj item))
    (seq (length before) (length array)) array.
Proof.
  induction array as [|item array IH]; intros before; simpl.
  - constructor.
  - constructor; [by rewrite list_lookup_middle|].
    specialize (IH (before ++ [Obj item])).
    rewrite length_app, Nat.add_1_r, <- app_assoc in IH. exact IH.
Qed.

Lemma parsed_well_typed (array : list (obj value)) :
  Forall (fun item => plain item = true) array ->
  well_typed (parsed array) 0 (seq 1 (length array)) array None [].
Proof.
  intros Hplain. split; [done|]. split; [|done].
  apply (parsed_records array [Arr (map Ref (seq 1 (length array)))]).
Qed.

(** The array the parser made, with a record that has a field named
    [hasOwnProperty] after plain ones. *)
Lemma parsed_typed_until (plains rest : list (obj value)) (bad : obj value) :
  Forall (fun item => plain item = true) plains ->
  typed_until (parsed (plains ++ bad :: rest)) 0 (seq 1 (length plains))
    plains (Ref (S (length plains)))
    (map Ref (seq (S (S (length plains))) (length rest))) None []
  /\ parsed (plains ++ bad :: rest) !! S (length plains) = Some (Obj bad).
Proof.
  intros Hplain. unfold parsed, typed_until.
  rewrite length_app. cbn [length].
  rewrite seq_app, map_app. cbn [seq map].
  set (array := Arr _).
  split; [split; [done|]; split; [|done]|].
  - pose proof (parsed_records (plains ++ bad :: rest) [array]) as Hall.
    rewrite length_app, seq_app in Hall.
    apply Forall2_app_inv in Hall as [Hall _]; [done|].
    by rewrite length_seq.
  - cbn [lookup list_lookup]. rewrite map_app.
    cbn [map]. rewrite <- (length_map Obj plains).
    by apply list_lookup_middle.
Qed.

(** The routine names the collection as it is told. *)
Lemma convert_name (st st' : list cell) dataArray latKey lngKey layer_name
    included c :
  Store.convertAssociativeArrayToGeoJSON dataArray latKey lngKey layer_name
    included st = (inr c, st') ->
  ref_name c = layer_name.
Proof.
  unfold Store.convertAssociativeArrayToGeoJSON, bind, ret.
  intros Hrun. repeat case_match; by simplify_eq.
Qed.

Section Environment.
Variable CACHE_DIRECTORY : string.
Variable fetch_text : string -> string + string.
Variable Papa_parse : string -> list (obj value).
Variable JSON_stringify : feature_collection -> nat -> string.

(** The collection built from a sheet none of whose records has a field
    named [hasOwnProperty]. *)
Lemma geojson_of_plain dataset csv :
  Forall (fun item => plain item = true) (Papa_parse csv) ->
  geojson_of Papa_parse dataset csv
  = inr {| collection_type := "FeatureCollection";
           name := replace (toLowerCase dataset) " " "-";
           crs := {| crs_type := "name";
                     crs_properties_name :=
                       "urn:ogc:def:crs:OGC:1.3:CRS84" |};
           features :=
             map (fun item =>
                    Some {| feature_type := "Feature";
                            feature_geometry :=
                              point "Latitude" "Longitude" item;
                            properties :=
                              fields (build_properties "Latitude"
                                        "Longitude" [] item) |})
                 (Papa_parse csv) |}.
Proof.
  intros Hplain. unfold geojson_of.
  rewrite (convert_run _ _ _ _ _ _ _ _ _ (parsed_well_typed _ Hplain)).
  unfold read_collection. cbn [features_ref].
  by rewrite read_feature_refs.
Qed.

(** The exception thrown for a sheet with a record that has a field
    named [hasOwnProperty], after plain ones. *)
Lemma geojson_of_shadowed dataset csv plains bad rest :
  Papa_parse csv = plains ++ bad :: rest ->
  Forall (fun item => plain item = true) plains ->
  hasOwnProperty bad "hasOwnProperty" = true ->
  geojson_of Papa_parse dataset csv
  = inl (TypeError "item.hasOwnProperty is not a function").
Proof.
  intros Hcsv Hplain Hshadow. unfold geojson_of. rewrite Hcsv.
  destruct (parsed_typed_until plains rest bad Hplain) as [Htyped Hbad].
  pose proof (convert_shadowed _ _ _ _ _ _ _ "Latitude" "Longitude"
                (replace (toLowerCase dataset) " " "-") _ _
                Htyped Hbad Hshadow) as Hthrow.
  destruct (Store.convertAssociativeArrayToGeoJSON 0 "Latitude" "Longitude"
              (replace (toLowerCase dataset) " " "-") None
              (parsed (plains ++ bad :: rest))) as [[e|c] st'];
    simpl in Hthrow; congruence.
Qed.

(** The name of the collection, whenever there is one. *)
Lemma geojson_of_name dataset csv geojson :
  geojson_of Papa_parse dataset csv = inr geojson ->
  name geojson = replace (toLowerCase dataset) " " "-".
Proof.
  unfold geojson_of.
  destruct (Store.convertAssociativeArrayToGeoJSON 0 "Latitude" "Longitude"
              (replace (toLowerCase dataset) " " "-") None
              (parsed (Papa_parse csv))) as [[e|c] st'] eqn:Hrun; [done|].
  unfold read_collection.
  destruct (read_features st' (features_ref c)); [|done].
  intros [= <-]. cbn [name]. by apply convert_name in Hrun.
Qed.

(** A run of [fetchAndCacheData] whose request is answered, with a sheet
    that converts: one request, then three writes. *)
Lemma fetchAndCacheData_run dataset url csv geojson w :
  fetch_text url = inr csv ->
  geojson_of Papa_parse dataset csv = inr geojson ->
  let stem := CACHE_DIRECTORY +:+ replace_whitespace_g dataset "-" in
  fetchAndCacheData CACHE_DIRECTORY fetch_text Papa_parse JSON_stringify
    dataset url w
  = (inr tt,
     {| files :=
          <[stem +:+ ".min.geojson" := JSON_stringify geojson 0]>
            (<[stem +:+ ".geojson" := JSON_stringify geojson 2]>
               (<[stem +:+ ".csv" := csv]> (files w)));
        trace :=
          trace w ++ [ Fetch url;
                       Write (stem +:+ ".csv");
                       Write (stem +:+ ".geojson");
                       Write (stem +:+ ".min.geojson") ] |}).
Proof.
  intros Hfetch Hgeojson stem.
  unfold fetchAndCacheData, fetch, writeFileSync, emit, modify, bind.
  simpl. rewrite Hfetch. simpl. rewrite Hgeojson. simpl. subst stem.
  by rewrite <- !app_assoc.
Qed.

(** A request that is rejected: nothing is written. *)
Lemma fetchAndCacheData_rejected dataset url message w :
  fetch_text url = inl message ->
  fetchAndCacheData CACHE_DIRECTORY fetch_text Papa_parse JSON_stringify
    dataset url w
  = (inl (FetchError message),
     {| files := files w; trace := trace w ++ [Fetch url] |}).
Proof.
  intros Hfetch.
  unfold fetchAndCacheData, fetch, emit, modify, bind.
  simpl. by rewrite Hfetch.
Qed.

(** A sheet on which the converter throws: nothing is written. *)
Lemma fetchAndCacheData_unconverted dataset url csv e w :
  fetch_text url = inr csv ->
  geojson_of Papa_parse dataset csv = inl e ->
  fetchAndCacheData CACHE_DIRECTORY fetch_text Papa_parse JSON_stringify
    dataset url w
  = (inl e, {| files := files w; trace := trace w ++ [Fetch url] |}).
Proof.
  intros Hfetch Hgeojson.
  unfold fetchAndCacheData, fetch, emit, modify, bind.
  simpl. rewrite Hfetch. simpl. by rewrite Hgeojson.
Qed.
End Environment.

(** [verifyCleanData] on a file that is there. *)
Lemma verifyCleanData_run filename data w :
  files w !! filename = Some data ->
  verifyCleanData filename w
  = (inr (if includes data "#REF!"
          then Some ("#REF! found in " +:+ filename)
          else if includes data "Loading"
               then Some ("Loading... found in " +:+ filename)
               else None),
     {| files := files w; trace := trace w ++ [Read filename] |}).
Proof.
  intros Hfile.
  unfold verifyCleanData, readFileSync, emit, modify, get_state, bind.
  simpl. rewrite Hfile. simpl.
  by destruct (includes data "#REF!"), (includes data "Loading").
Qed.

End CacheFacts.

(** ** Claims on the cache pipeline *)

Module CacheClaims.
Import JSString JSNumber JSObject Converter Effect Store Cache Examples.
Import JSStringFacts CacheFacts.

(** C5. For every text [data] stored under [filename]: [verifyCleanData]
    returns the warning that names [#REF!] whenever [data] contains
    [#REF!]; the warning that names [Loading] when [data] contains
    [Loading] and not [#REF!]; and nothing when it contains neither. So
    with both markers in the text only the [#REF!] warning comes back. *)
Theorem verification_priority (filename data : string) (w : world) :
  files w !! filename = Some data ->
  let result := fst (verifyCleanData filename w) in
  (contains data "#REF!" ->
     result = inr (Some ("#REF! found in " +:+ filename)))
  /\ (~ contains data "#REF!" -> contains data "Loading" ->
        result = inr (Some ("Loading... found in " +:+ filename)))
  /\ (~ contains data "#REF!" -> ~ contains data "Loading" ->
        result = inr None)
  /\ contains ("#REF! found in " +:+ filename) "#REF!"
  /\ contains ("Loading... found in " +:+ filename) "Loading".
Proof.
  intros Hfile result. subst result.
  rewrite (verifyCleanData_run _ _ _ Hfile). simpl fst.
  repeat split.
  - intros Href%includes_contains. by rewrite Href.
  - intros Href%includes_not_contains Hload%includes_contains.
    by rewrite Href, Hload.
  - intros Href%includes_not_contains Hload%includes_not_contains.
    by rewrite Href, Hload.
  - by exists "", (" found in " +:+ filename).
  - by exists "", ("... found in " +:+ filename).
Qed.

Lemma verification_priority_witness :
  contains "Name,#REF!,Loading..." "#REF!"
  /\ contains "Name,#REF!,Loading..." "Loading"
  /\ fst (verifyCleanData "data/Boats.csv" dirty_world)
     = inr (Some "#REF! found in data/Boats.csv").
Proof.
  assert (contains "Name,#REF!,Loading..." "#REF!") as Href
    by (by exists "Name,", ",Loading...").
  split; [exact Href|]. split; [by exists "Name,#REF!,", "..."|].
  exact (proj1 (verification_priority "data/Boats.csv"
                  "Name,#REF!,Loading..." dirty_world eq_refl) Href).
Defined.

Section Environment.
Variable CACHE_DIRECTORY : string.
Variable fetch_text : string -> string + string.
Variable Papa_parse : string -> list (obj value).
Variable JSON_stringify : feature_collection -> nat -> string.
Variable clock : nat -> string.

(** C6, as the code has it. For every dataset name, a run of
    [fetchAndCacheData] whose request is answered, with a sheet from
    which the converter returns a collection, writes three files, in this
    order: the cache directory, then the dataset name with each
    whitespace character replaced by ["-"], then [".csv"], [".geojson"]
    and [".min.geojson"]. *)
Theorem artifact_names (dataset url csv : string)
    (geojson : feature_collection) (w : world) :
  fetch_text url = inr csv ->
  geojson_of Papa_parse dataset csv = inr geojson ->
  let stem :=
    CACHE_DIRECTORY
      +:+ map_chars (fun c => if is_whitespace c then "-"%char else c)
            dataset in
  fetchAndCacheData CACHE_DIRECTORY fetch_text Papa_parse JSON_stringify
    dataset url w
  = (inr tt,
     {| files :=
          <[stem +:+ ".min.geojson" := JSON_stringify geojson 0]>
            (<[stem +:+ ".geojson" := JSON_stringify geojson 2]>
               (<[stem +:+ ".csv" := csv]> (files w)));
        trace :=
          trace w ++ [ Fetch url;
                       Write (stem +:+ ".csv");
                       Write (stem +:+ ".geojson");
                       Write (stem +:+ ".min.geojson") ] |}).
Proof.
  intros Hfetch Hgeojson stem. subst stem.
  rewrite <- replace_whitespace_dash.
  by apply fetchAndCacheData_run.
Qed.

(** C7, at a name of the catalog with two spaces. Whenever the request
    for ["Civil Supplies Godowns"] is answered with a sheet from which
    the converter returns a collection, the collection written to the
    [.geojson] file is named ["civil-supplies godowns"]: the second space
    is still there. *)
Theorem collection_name_keeps_second_space (url csv : string)
    (geojson : feature_collection) (w : world) :
  fetch_text url = inr csv ->
  geojson_of Papa_parse "Civil Supplies Godowns" csv = inr geojson ->
  files
    (snd (fetchAndCacheData CACHE_DIRECTORY fetch_text Papa_parse
            JSON_stringify "Civil Supplies Godowns" url w))
    !! ((CACHE_DIRECTORY +:+ "Civil-Supplies-Godowns") +:+ ".geojson")
  = Some (JSON_stringify geojson 2)
  /\ name geojson = "civil-supplies godowns"
  /\ name geojson <> "civil-supplies-godowns".
Proof.
  intros Hfetch Hgeojson.
  assert (name geojson = "civil-supplies godowns") as Hname
    by exact (geojson_of_name _ _ _ _ Hgeojson).
  split; [|split; [done | by rewrite Hname]].
  rewrite (fetchAndCacheData_run _ _ _ _ _ _ _ _ w Hfetch Hgeojson).
  simpl snd. simpl files. rewrite lookup_insert_ne.
  - apply lookup_insert_eq.
  - intros Heq%append_inj_l. discriminate.
Qed.
End Environment.

Lemma artifact_names_witness :
  fetchAndCacheData demo_directory demo_fetch demo_parse demo_stringify
    "Fire Stations" (GOOGLESHEETURL +:+ "0") empty_world
  = (inr tt,
     {| files :=
          <["data/Fire-Stations.min.geojson" := "fire-stations"]>
            (<["data/Fire-Stations.geojson" := "fire-stations"]>
               (<["data/Fire-Stations.csv" := demo_sheet]> ∅));
        trace := [ Fetch (GOOGLESHEETURL +:+ "0");
                   Write "data/Fire-Stations.csv";
                   Write "data/Fire-Stations.geojson";
                   Write "data/Fire-Stations.min.geojson" ] |}).
Proof.
  exact (artifact_names demo_directory demo_fetch demo_parse demo_stringify
           "Fire Stations" (GOOGLESHEETURL +:+ "0") demo_sheet _
           empty_world eq_refl eq_refl).
Defined.

(** C6, as it is worded, fails: the name with the whitespace removed is
    ["FireStations"], and no file of that name is written. *)
Lemma artifact_names_counterexample :
  let w := snd (fetchAndCacheData demo_directory demo_fetch demo_parse
                  demo_stringify "Fire Stations" (GOOGLESHEETURL +:+ "0")
                  empty_world) in
  remove_whitespace "Fire Stations" = "FireStations"
  /\ files w !! "data/FireStations.csv" = None
  /\ files w !! "data/Fire-Stations.csv" = Some demo_sheet
  /\ trace w = [ Fetch (GOOGLESHEETURL +:+ "0");
                 Write "data/Fire-Stations.csv";
                 Write "data/Fire-Stations.geojson";
                 Write "data/Fire-Stations.min.geojson" ].
Proof. repeat split; vm_compute; reflexivity. Qed.

Lemma collection_name_keeps_second_space_witness :
  exists geojson,
    geojson_of demo_parse "Civil Supplies Godowns" demo_sheet = inr geojson
    /\ files
         (snd (fetchAndCacheData demo_directory demo_fetch demo_parse
                 demo_stringify "Civil Supplies Godowns"
                 (GOOGLESHEETURL +:+ "396287298") empty_world))
         !! "data/Civil-Supplies-Godowns.geojson"
       = Some (demo_stringify geojson 2)
    /\ name geojson = "civil-supplies godowns"
    /\ name geojson <> "civil-supplies-godowns".
Proof.
  eexists. split; [reflexivity|].
  apply (collection_name_keeps_second_space demo_directory demo_fetch
           demo_parse demo_stringify (GOOGLESHEETURL +:+ "396287298")
           demo_sheet _ empty_world); reflexivity.
Defined.

(** C9. The catalog literal writes the identifier ["0"] four times, for
    "Fire Stations", "Capacity Building", "High Density Spaces" and
    "Boats". The object it makes has 18 properties, of distinct keys, and
    binds ["0"] to "Boats", the last one written. Both loops of the batch
    driver go through these 18 bindings and nothing else; the three
    earlier names are bound to no key, so they are never fetched, cached
    or verified. *)
Theorem catalog_last_write_wins :
  List.filter (fun entry => String.eqb (fst entry) "0") dataSets_entries
  = [ ("0", "Fire Stations"); ("0", "Capacity Building");
      ("0", "High Density Spaces"); ("0", "Boats") ]
  /\ length dataSets_entries = 21
  /\ dataSets
     = [ ("0", "Boats"); ("36114476", "Dam Levels");
         ("236724982", "MHA Units"); ("302060060", "Fire Appliances");
         ("392979524", "Heavy Machinery");
         ("396287298", "Civil Supplies Godowns");
         ("410764449", "Apada Mitras"); ("443003227", "Panchayats");
         ("495904604", "Hospitals"); ("867350358", "Police Stations");
         ("920360157", "Water Resources"); ("973534772", "Apada Sakhis");
         ("1309860234", "Cyclone Shelters");
         ("1689409318", "River Gauges");
         ("1768104908", "Mutual Aid Agencies"); ("1786282296", "Schools");
         ("1929576986", "Tree Cutters"); ("2107086279", "Ambulances") ]
  /\ length (Object_keys dataSets) = 18
  /\ NoDup (Object_keys dataSets)
  /\ obj_lookup dataSets "0" = Some "Boats"
  /\ List.filter
       (fun binding =>
          existsb (String.eqb (snd binding))
            ["Fire Stations"; "Capacity Building"; "High Density Spaces"])
       dataSets = []
  /\ (forall CACHE_DIRECTORY fetch_text Papa_parse JSON_stringify clock w,
        caching_phase CACHE_DIRECTORY fetch_text Papa_parse JSON_stringify
          clock dataSets w
        = Effect.bind
            (caching_bindings CACHE_DIRECTORY fetch_text Papa_parse
               JSON_stringify clock dataSets)
            (fun _ => debugLog CACHE_DIRECTORY clock
                        "File Caching finished" None) w)
  /\ (forall CACHE_DIRECTORY clock w,
        checking_phase CACHE_DIRECTORY clock dataSets w
        = Effect.bind
            (checking_bindings CACHE_DIRECTORY clock dataSets [])
            (fun errors =>
               Effect.bind
                 (debugLog CACHE_DIRECTORY clock
                    "File Checking finished" None)
                 (fun _ => ret errors)) w).
Proof.
  split; [reflexivity|]. split; [reflexivity|]. split; [reflexivity|].
  split; [reflexivity|]. split; [|split; [reflexivity|]].
  { apply (bool_decide_unpack (NoDup (Object_keys dataSets))).
    by vm_compute. }
  split; [reflexivity|]. split.
  - intros. reflexivity.
  - intros. reflexivity.
Qed.

End CacheClaims.

(** ** More on the converter over the store *)

Module StoreExtras.
Import JSString JSNumber JSObject Converter Effect Store Examples Vocabulary.
Import JSObjectFacts ConverterFacts KeyOrderFacts StoreRun.










(** X5. On well-typed inputs the routine makes one new object per element
    of [dataArray], in order, after the default array when
    [propertiesToInclude] is left out: the [properties] of the i-th feature
    is the i-th new cell. So no two features share their properties, even
    when the array holds the same record twice. *)
Theorem one_properties_object_per_feature
    (st : list cell) (dataArray : nat) (ls : list nat)
    (records : list (obj value)) (latKey lngKey layer_name : string)
    (propertiesToInclude : option nat) (keys : list string) :
  well_typed st dataArray ls records propertiesToInclude keys ->
  exists c,
    Store.convertAssociativeArrayToGeoJSON dataArray latKey lngKey
      layer_name propertiesToInclude st
    = (inr c,
       (st ++ default_cells propertiesToInclude)
         ++ map (fun item =>
                   cell_of (build_properties latKey lngKey keys item))
                records)
    /\ map (fmap properties_ref) (features_ref c)
       = map Some
           (seq (length (st ++ default_cells propertiesToInclude))
              (length records)).
Proof.
  intros Htyped. eexists. split.
  - exact (convert_run st dataArray ls records latKey lngKey layer_name
             propertiesToInclude keys Htyped).
  - apply properties_ref_feature_refs.
Qed.

Lemma twice_alpha_well_typed :
  well_typed twice_alpha 0 [1; 1] [alpha; alpha] None [].
Proof.
  split; [reflexivity|]. split; [by repeat constructor|].
  split; [by repeat constructor | reflexivity].
Defined.

Lemma one_properties_object_per_feature_witness :
  exists c,
    Store.convertAssociativeArrayToGeoJSON 0 "Latitude" "Longitude" "test"
      None twice_alpha
    = (inr c,
       (twice_alpha ++ [Arr []])
         ++ [ Obj [("Name", VStr "Alpha")]; Obj [("Name", VStr "Alpha")] ])
    /\ map (fmap properties_ref) (features_ref c) = [Some 3; Some 4].
Proof.
  exact (one_properties_object_per_feature twice_alpha 0 [1; 1]
           [alpha; alpha] "Latitude" "Longitude" "test" None []
           twice_alpha_well_typed).
Defined.




(** X7. When a record of [dataArray] has a field named [hasOwnProperty]
    and the elements before it are plain records, the routine throws a
    TypeError, whether [propertiesToInclude] is empty or not: the call
    [item.hasOwnProperty(key)] finds the field, not the method. *)
Theorem hasOwnProperty_field_throws
    (st : list cell) (dataArray : nat) (ls : list nat)
    (records : list (obj value)) (l : nat) (item : obj value)
    (rest : list jsval) (latKey lngKey layer_name : string)
    (propertiesToInclude : option nat) (keys : list string) :
  typed_until st dataArray ls records (Ref l) rest propertiesToInclude
    keys ->
  st !! l = Some (Obj item) ->
  hasOwnProperty item "hasOwnProperty" = true ->
  fst (Store.convertAssociativeArrayToGeoJSON dataArray latKey lngKey
         layer_name propertiesToInclude st)
  = inl (TypeError "item.hasOwnProperty is not a function").
Proof.
  intros Htyped Hitem Hshadow.
  exact (convert_shadowed st dataArray ls records l item rest latKey lngKey
           layer_name propertiesToInclude keys Htyped Hitem Hshadow).
Qed.

Lemma with_shadowing_typed :
  typed_until with_shadowing 0 [1] [alpha] (Ref 2) [] (Some 3) ["Name"].
Proof.
  split; [reflexivity|]. split; [by repeat constructor|].
  split; [by repeat constructor | reflexivity].
Defined.

Lemma hasOwnProperty_field_throws_witness :
  fst (Store.convertAssociativeArrayToGeoJSON 0 "Latitude" "Longitude"
         "test" (Some 3) with_shadowing)
  = inl (TypeError "item.hasOwnProperty is not a function").
Proof.
  exact (hasOwnProperty_field_throws with_shadowing 0 [1] [alpha] 2
           shadowing [] "Latitude" "Longitude" "test" (Some 3) ["Name"]
           with_shadowing_typed eq_refl eq_refl).
Defined.

End StoreExtras.

(** ** More on fetching, caching and verifying *)

Module CacheExtras.
Import JSString JSNumber JSObject Converter Effect Store Cache Examples.
Import Vocabulary JSStringFacts CacheFacts.

Lemma csv_not_geojson (stem : string) : stem +:+ ".csv" <> stem +:+ ".geojson".
Proof. by intros Heq%append_inj_l. Qed.

Lemma csv_not_min_geojson (stem : string) :
  stem +:+ ".csv" <> stem +:+ ".min.geojson".
Proof. by intros Heq%append_inj_l. Qed.

Lemma lower_char_idempotent c : lower_char (lower_char c) = lower_char c.
Proof. by destruct c as [[] [] [] [] [] [] [] []]. Qed.

Lemma toLowerCase_cons c s :
  toLowerCase (String c s) = String (lower_char c) (toLowerCase s).
Proof. done. Qed.

Lemma toLowerCase_idempotent s : toLowerCase (toLowerCase s) = toLowerCase s.
Proof.
  induction s as [|c s IH]; [done|].
  by rewrite !toLowerCase_cons, lower_char_idempotent, IH.
Qed.

Lemma toLowerCase_replace_space s :
  toLowerCase (replace s " " "-") = replace (toLowerCase s) " " "-".
Proof.
  induction s as [|c s IH]; [done|].
  rewrite toLowerCase_cons, !replace_space_cons, lower_char_space.
  destruct (Ascii.eqb " " c); [done|]. by rewrite toLowerCase_cons, IH.
Qed.

Section Environment.
Variable CACHE_DIRECTORY : string.
Variable fetch_text : string -> string + string.
Variable Papa_parse : string -> list (obj value).
Variable JSON_stringify : feature_collection -> nat -> string.

Local Notation run_fetch :=
  (fetchAndCacheData CACHE_DIRECTORY fetch_text Papa_parse JSON_stringify).

(** X8. When the request is rejected, [fetchAndCacheData] throws the
    rejection and writes nothing: the files are as before, and the request
    is the only event. *)
Theorem rejected_request_writes_nothing (dataset url message : string)
    (w : world) :
  fetch_text url = inl message ->
  run_fetch dataset url w
  = (inl (FetchError message),
     {| files := files w; trace := trace w ++ [Fetch url] |}).
Proof. apply fetchAndCacheData_rejected. Qed.

(** X9. Whether the request is answered or rejected, [fetchAndCacheData]
    changes no file but the three artifacts of its dataset. *)
Theorem other_files_untouched (dataset url path : string) (w : world) :
  path ∈ artifact_paths CACHE_DIRECTORY dataset
  \/ files (snd (run_fetch dataset url w)) !! path = files w !! path.
Proof.
  destruct (fetch_text url) as [message|csv] eqn:Hfetch.
  { right. by rewrite (fetchAndCacheData_rejected _ _ _ _ _ _ _ w Hfetch). }
  destruct (geojson_of Papa_parse dataset csv) as [e|geojson] eqn:Hgeojson.
  { right.
    by rewrite (fetchAndCacheData_unconverted _ _ _ _ _ _ _ _ w Hfetch
                  Hgeojson). }
  rewrite (fetchAndCacheData_run _ _ _ _ _ _ _ _ w Hfetch Hgeojson).
  cbn [snd files]. unfold artifact_paths.
  set (stem := CACHE_DIRECTORY +:+ replace_whitespace_g dataset "-").
  destruct (decide (path = stem +:+ ".csv")) as [->|Hcsv];
    [left; set_solver|].
  destruct (decide (path = stem +:+ ".geojson")) as [->|Hgeo];
    [left; set_solver|].
  destruct (decide (path = stem +:+ ".min.geojson")) as [->|Hmin];
    [left; set_solver|].
  right. by rewrite !lookup_insert_ne.
Qed.

(** X10. Running [fetchAndCacheData] a second time, with the same answer
    from the server, leaves the files as the first run left them: each
    write replaces the file of the same name. *)
Theorem second_run_overwrites (dataset url : string) (w : world) :
  files (snd (run_fetch dataset url (snd (run_fetch dataset url w))))
  = files (snd (run_fetch dataset url w)).
Proof.
  destruct (fetch_text url) as [message|csv] eqn:Hfetch.
  { by rewrite !(fetchAndCacheData_rejected _ _ _ _ _ _ _ _ Hfetch). }
  destruct (geojson_of Papa_parse dataset csv) as [e|geojson] eqn:Hgeojson.
  { by rewrite !(fetchAndCacheData_unconverted _ _ _ _ _ _ _ _ _ Hfetch
                   Hgeojson). }
  rewrite !(fetchAndCacheData_run _ _ _ _ _ _ _ _ _ Hfetch Hgeojson).
  cbn [snd files]. apply map_eq. intros path.
  rewrite !lookup_insert. by repeat case_decide.
Qed.

(** X11. After a run of [fetchAndCacheData] whose request is answered,
    with a sheet from which the converter returns a collection,
    [verifyCleanData] on the [.csv] artifact finds the file and judges the
    text the server sent: the [#REF!] warning, the [Loading] warning, or
    nothing. *)
Theorem verification_reads_cached_sheet (dataset url csv : string)
    (geojson : feature_collection) (w : world) :
  fetch_text url = inr csv ->
  geojson_of Papa_parse dataset csv = inr geojson ->
  let path :=
    (CACHE_DIRECTORY +:+ replace_whitespace_g dataset "-") +:+ ".csv" in
  fst (verifyCleanData path (snd (run_fetch dataset url w)))
  = inr (if includes csv "#REF!"
         then Some ("#REF! found in " +:+ path)
         else if includes csv "Loading"
              then Some ("Loading... found in " +:+ path)
              else None).
Proof.
  intros Hfetch Hgeojson path. subst path.
  rewrite (fetchAndCacheData_run _ _ _ _ _ _ _ _ w Hfetch Hgeojson).
  cbn [snd].
  erewrite verifyCleanData_run; [reflexivity|]. cbn [files].
  rewrite lookup_insert_ne by (symmetry; apply csv_not_min_geojson).
  rewrite lookup_insert_ne by (symmetry; apply csv_not_geojson).
  apply lookup_insert_eq.
Qed.

(** X15. Two dataset names that agree once their whitespace is replaced
    by ["-"] share their artifacts: after the run for the first name, a
    run for the second that is answered with a sheet that converts leaves
    the files as if the first had not run. *)
Theorem same_stem_overwrites (dataset1 dataset2 url1 url2 csv2 : string)
    (geojson2 : feature_collection) (w : world) :
  replace_whitespace_g dataset1 "-" = replace_whitespace_g dataset2 "-" ->
  fetch_text url2 = inr csv2 ->
  geojson_of Papa_parse dataset2 csv2 = inr geojson2 ->
  files (snd (run_fetch dataset2 url2 (snd (run_fetch dataset1 url1 w))))
  = files (snd (run_fetch dataset2 url2 w)).
Proof.
  intros Hstem Hfetch2 Hgeojson2.
  rewrite !(fetchAndCacheData_run _ _ _ _ _ _ _ _ _ Hfetch2 Hgeojson2).
  cbn [snd files].
  destruct (fetch_text url1) as [message|csv1] eqn:Hfetch1.
  { by rewrite (fetchAndCacheData_rejected _ _ _ _ _ _ _ w Hfetch1). }
  destruct (geojson_of Papa_parse dataset1 csv1) as [e|geojson1]
    eqn:Hgeojson1.
  { by rewrite (fetchAndCacheData_unconverted _ _ _ _ _ _ _ _ w Hfetch1
                  Hgeojson1). }
  rewrite (fetchAndCacheData_run _ _ _ _ _ _ _ _ w Hfetch1 Hgeojson1).
  cbn [snd files]. rewrite Hstem. apply map_eq. intros path.
  rewrite !lookup_insert. by repeat case_decide.
Qed.

(** X22. A sheet none of whose records has a field named
    [hasOwnProperty] converts: the converter returns a collection, named
    by line 71, with one feature per record of the sheet; and the run
    that is answered with this sheet ends without an exception. *)
Theorem plain_sheet_converts (dataset url csv : string) (w : world) :
  fetch_text url = inr csv ->
  Forall (fun item => plain item = true) (Papa_parse csv) ->
  exists geojson,
    geojson_of Papa_parse dataset csv = inr geojson
    /\ name geojson = replace (toLowerCase dataset) " " "-"
    /\ length (features geojson) = length (Papa_parse csv)
    /\ forallb not_null (features geojson) = true
    /\ fst (run_fetch dataset url w) = inr tt.
Proof.
  intros Hfetch Hplain. eexists.
  split; [by apply geojson_of_plain|]. cbn [name features].
  split; [done|]. split; [apply length_map|]. split.
  - generalize (Papa_parse csv). intros array.
    by induction array as [|item array IH].
  - by rewrite (fetchAndCacheData_run _ _ _ _ _ _ _ _ w Hfetch
                  (geojson_of_plain _ dataset csv Hplain)).
Qed.

(** X23. When the request is answered with a sheet that has a record
    with a field named [hasOwnProperty], after records without one,
    [fetchAndCacheData] throws the TypeError of the converter and writes
    nothing, not even the [.csv]: the request is its only event. *)
Theorem shadowing_sheet_writes_nothing (dataset url csv : string)
    (plains rest : list (obj value)) (bad : obj value) (w : world) :
  fetch_text url = inr csv ->
  Papa_parse csv = plains ++ bad :: rest ->
  Forall (fun item => plain item = true) plains ->
  hasOwnProperty bad "hasOwnProperty" = true ->
  run_fetch dataset url w
  = (inl (TypeError "item.hasOwnProperty is not a function"),
     {| files := files w; trace := trace w ++ [Fetch url] |}).
Proof.
  intros Hfetch Hcsv Hplain Hshadow.
  apply (fetchAndCacheData_unconverted _ _ _ _ _ _ csv); [done|].
  by apply (geojson_of_shadowed _ _ _ plains bad rest).
Qed.

(** X13. For every dataset name and every sheet from which the converter
    returns a collection, the name of the collection is in lower case:
    lower-casing it again changes nothing. *)
Theorem collection_name_lower_case (dataset csv : string)
    (geojson : feature_collection) :
  geojson_of Papa_parse dataset csv = inr geojson ->
  toLowerCase (name geojson) = name geojson.
Proof.
  intros Hgeojson. rewrite (geojson_of_name _ _ _ _ Hgeojson).
  by rewrite toLowerCase_replace_space, toLowerCase_idempotent.
Qed.
End Environment.

Lemma rejected_request_writes_nothing_witness :
  fetchAndCacheData demo_directory demo_offline demo_parse demo_stringify
    "Boats" (GOOGLESHEETURL +:+ "0") dirty_world
  = (inl (FetchError "request failed"),
     {| files := files dirty_world;
        trace := [Fetch (GOOGLESHEETURL +:+ "0")] |}).
Proof.
  exact (rejected_request_writes_nothing demo_directory demo_offline
           demo_parse demo_stringify "Boats" (GOOGLESHEETURL +:+ "0")
           "request failed" dirty_world eq_refl).
Defined.

Lemma verification_reads_cached_sheet_witness :
  fst (verifyCleanData "data/Fire-Stations.csv"
         (snd (fetchAndCacheData demo_directory demo_fetch demo_parse
                 demo_stringify "Fire Stations" (GOOGLESHEETURL +:+ "0")
                 empty_world)))
  = inr None.
Proof.
  exact (verification_reads_cached_sheet demo_directory demo_fetch
           demo_parse demo_stringify "Fire Stations"
           (GOOGLESHEETURL +:+ "0") demo_sheet _ empty_world eq_refl
           eq_refl).
Defined.

Lemma same_stem_overwrites_witness :
  files
    (snd (fetchAndCacheData demo_directory demo_fetch demo_parse
            demo_stringify "Fire-Stations" (GOOGLESHEETURL +:+ "1")
            (snd (fetchAndCacheData demo_directory demo_fetch demo_parse
                    demo_stringify "Fire Stations" (GOOGLESHEETURL +:+ "0")
                    empty_world))))
  = files
      (snd (fetchAndCacheData demo_directory demo_fetch demo_parse
              demo_stringify "Fire-Stations" (GOOGLESHEETURL +:+ "1")
              empty_world)).
Proof.
  exact (same_stem_overwrites demo_directory demo_fetch demo_parse
           demo_stringify "Fire Stations" "Fire-Stations"
           (GOOGLESHEETURL +:+ "0") (GOOGLESHEETURL +:+ "1") demo_sheet _
           empty_world eq_refl eq_refl eq_refl).
Defined.

Lemma plain_sheet_converts_witness :
  exists geojson,
    geojson_of demo_parse "Fire Stations" demo_sheet = inr geojson
    /\ name geojson = "fire-stations"
    /\ length (features geojson) = 2
    /\ forallb not_null (features geojson) = true
    /\ fst (fetchAndCacheData demo_directory demo_fetch demo_parse
              demo_stringify "Fire Stations" (GOOGLESHEETURL +:+ "0")
              empty_world) = inr tt.
Proof.
  exact (plain_sheet_converts demo_directory demo_fetch demo_parse
           demo_stringify "Fire Stations" (GOOGLESHEETURL +:+ "0")
           demo_sheet empty_world eq_refl (demo_parse_plain demo_sheet)).
Defined.

Lemma shadowing_sheet_writes_nothing_witness :
  fetchAndCacheData demo_directory demo_fetch demo_shadowing_parse
    demo_stringify "Boats" (GOOGLESHEETURL +:+ "0") dirty_world
  = (inl (TypeError "item.hasOwnProperty is not a function"),
     {| files := files dirty_world;
        trace := [Fetch (GOOGLESHEETURL +:+ "0")] |}).
Proof.
  apply (shadowing_sheet_writes_nothing demo_directory demo_fetch
           demo_shadowing_parse demo_stringify "Boats"
           (GOOGLESHEETURL +:+ "0") demo_sheet [alpha] [beta] shadowing
           dirty_world eq_refl eq_refl); [by repeat constructor | done].
Defined.

Lemma collection_name_lower_case_witness :
  exists geojson,
    geojson_of demo_parse "Fire Stations" demo_sheet = inr geojson
    /\ toLowerCase (name geojson) = name geojson.
Proof.
  eexists. split; [reflexivity|].
  apply (collection_name_lower_case demo_parse "Fire Stations" demo_sheet).
  reflexivity.
Defined.

(** X12. [verifyCleanData] reads one file and changes none. When the file
    is not there it throws the error of the read; when it is there it
    returns. *)
Theorem verification_only_reads (filename : string) (w : world) :
  snd (verifyCleanData filename w)
  = {| files := files w; trace := trace w ++ [Read filename] |}
  /\ match files w !! filename with
     | None => fst (verifyCleanData filename w) = inl (ENOENT filename)
     | Some data =>
         exists warning, fst (verifyCleanData filename w) = inr warning
     end.
Proof.
  destruct (files w !! filename) as [data|] eqn:Hfile.
  - rewrite (verifyCleanData_run _ _ _ Hfile). split; [done | by eexists].
  - unfold verifyCleanData, readFileSync, emit, modify, get_state, bind.
    simpl. by rewrite Hfile.
Qed.

Lemma replace_whitespace_fixed s :
  string_forallb (fun c => negb (is_whitespace c)) s = true ->
  replace_whitespace_g s "-" = s.
Proof.
  induction s as [|c s IH]; simpl; [done|].
  intros [Hc Hs]%andb_true_iff. apply negb_true_iff in Hc.
  rewrite Hc. simpl. by rewrite IH.
Qed.

(** X14. For every dataset name, the part of the artifact names made from
    it has the length of the dataset name, holds no whitespace, and is
    left as it is by a second replacement. *)
Theorem artifact_stem_shape (dataset : string) :
  String.length (replace_whitespace_g dataset "-") = String.length dataset
  /\ string_forallb (fun c => negb (is_whitespace c))
       (replace_whitespace_g dataset "-") = true
  /\ replace_whitespace_g (replace_whitespace_g dataset "-") "-"
     = replace_whitespace_g dataset "-".
Proof.
  split; [|split].
  - by rewrite replace_whitespace_dash, length_map_chars.
  - apply no_whitespace_replaced.
  - apply replace_whitespace_fixed, no_whitespace_replaced.
Qed.

End CacheExtras.

(** ** The batch driver *)

Module BatchFacts.
Import JSString JSNumber JSObject Converter Effect Store Cache Examples.
Import Vocabulary JSObjectFacts JSStringFacts CacheFacts.

Lemma requests_app tr1 tr2 : requests (tr1 ++ tr2) = requests tr1 ++ requests tr2.
Proof. apply omap_app. Qed.

Lemma reads_app tr1 tr2 : reads (tr1 ++ tr2) = reads tr1 ++ reads tr2.
Proof. apply omap_app. Qed.

Lemma exits_app tr1 tr2 : exits (tr1 ++ tr2) = exits tr1 ++ exits tr2.
Proof. apply omap_app. Qed.

Lemma bind_run {S A B : Type} (m : M S A) (k : A -> M S B) s a s' :
  m s = (inr a, s') -> bind m k s = k a s'.
Proof. unfold bind. by intros ->. Qed.

Lemma bind_throw {S A B : Type} (m : M S A) (k : A -> M S B) s e s' :
  m s = (inl e, s') -> bind m k s = (inl e, s').
Proof. unfold bind. by intros ->. Qed.

Lemma bind_ext {S A B : Type} (m : M S A) (k1 k2 : A -> M S B) s :
  (forall a s', k1 a s' = k2 a s') -> bind m k1 s = bind m k2 s.
Proof. intros Hk. unfold bind. by destruct (m s) as [[e|a] s']. Qed.

Lemma bind_ext2 {S A B : Type} (m1 m2 : M S A) (k1 k2 : A -> M S B) s :
  (forall s', m1 s' = m2 s') -> (forall a s', k1 a s' = k2 a s') ->
  bind m1 k1 s = bind m2 k2 s.
Proof.
  intros Hm Hk. unfold bind. rewrite Hm. by destruct (m2 s) as [[e|a] s'].
Qed.

(** A loop stops at the first element on which its body throws. *)
Lemma for_of_throw {S A : Type} (body : A -> M S unit) (x : A)
    (rest : list A) e : forall (xs : list A) (s s1 s2 : S),
  for_of xs body s = (inr tt, s1) ->
  body x s1 = (inl e, s2) ->
  for_of (xs ++ x :: rest) body s = (inl e, s2).
Proof.
  induction xs as [|a xs IH]; intros s s1 s2 Hxs Hx; simpl in *.
  - injection Hxs as <-. unfold bind. by rewrite Hx.
  - unfold bind in *. destruct (body a s) as [[e'|[]] sa]; [done|].
    by apply (IH sa s1 s2).
Qed.

Lemma obj_lookup_binding {V : Type} (o : obj V) k v :
  NoDup (Object_keys o) -> (k, v) ∈ o -> obj_lookup o k = Some v.
Proof.
  induction o as [|[k0 v0] o IH]; simpl.
  - by intros _ ?%elem_of_nil.
  - intros [Hk0 Hnd]%NoDup_cons [[= -> ->]|Hin]%elem_of_cons.
    + by rewrite String.eqb_refl.
    + destruct (String.eqb_spec k0 k) as [->|_]; [|by apply IH].
      exfalso. apply Hk0. apply list_elem_of_fmap. by exists (k, v).
Qed.

Section Environment.
Variable CACHE_DIRECTORY : string.
Variable fetch_text : string -> string + string.
Variable Papa_parse : string -> list (obj value).
Variable JSON_stringify : feature_collection -> nat -> string.
Variable clock : nat -> string.
Variable stack_of : js_error -> string.

Local Notation LOG := (LOG_FILE CACHE_DIRECTORY).

Lemma debugLog_run message data w :
  debugLog CACHE_DIRECTORY clock message data w
  = (inr tt,
     {| files :=
          <[LOG := default "" (files w !! LOG)
                     +:+ log_line clock (length (trace w)) message data]>
            (files w);
        trace :=
          trace w ++ [ Console (log_line clock (length (trace w)) message
                                  data);
                       Append LOG ] |}).
Proof.
  unfold debugLog, appendFileSync, emit, modify, get_state, bind, log_line.
  simpl. by rewrite <- app_assoc.
Qed.

Lemma dataSets_get_run (catalog : obj string) key dataset (w : world) :
  obj_lookup catalog key = Some dataset ->
  dataSets_get catalog key w = (inr dataset, w).
Proof. unfold dataSets_get. by intros ->. Qed.

(** The loop of lines 123-126 over the keys of bindings that the catalog
    has is the loop over the bindings. *)
Lemma caching_loop_bindings (catalog : obj string) :
  forall (bindings : list (string * string)) (w : world),
  (forall b, b ∈ bindings -> obj_lookup catalog (fst b) = Some (snd b)) ->
  for_of (map fst bindings) (fun key =>
    bind (dataSets_get catalog key) (fun dataset =>
    bind (fetchAndCacheData CACHE_DIRECTORY fetch_text Papa_parse
            JSON_stringify dataset (GOOGLESHEETURL +:+ key)) (fun _ =>
    bind (dataSets_get catalog key) (fun dataset =>
    debugLog CACHE_DIRECTORY clock ("Finished generating " +:+ dataset)
      None)))) w
  = caching_bindings CACHE_DIRECTORY fetch_text Papa_parse JSON_stringify
      clock bindings w.
Proof.
  unfold caching_bindings.
  induction bindings as [|[key dataset] bindings IH]; intros w Hb; [done|].
  cbn [map for_of fst snd].
  assert (obj_lookup catalog key = Some dataset) as Hkey.
  { apply (Hb (key, dataset)). apply elem_of_cons. by left. }
  apply bind_ext2.
  - intros w0. rewrite (bind_run _ _ _ _ _ (dataSets_get_run _ _ _ w0 Hkey)).
    apply bind_ext. intros _ w1.
    by rewrite (bind_run _ _ _ _ _ (dataSets_get_run _ _ _ w1 Hkey)).
  - intros _ w1. apply IH. intros b Hin. apply Hb. apply elem_of_cons.
    by right.
Qed.

Lemma checking_loop_bindings (catalog : obj string) :
  forall (bindings : list (string * string)) errors (w : world),
  (forall b, b ∈ bindings -> obj_lookup catalog (fst b) = Some (snd b)) ->
  checking_loop CACHE_DIRECTORY clock catalog (map fst bindings) errors w
  = checking_bindings CACHE_DIRECTORY clock bindings errors w.
Proof.
  induction bindings as [|[key dataset] bindings IH]; intros errors w Hb;
    [done|].
  cbn [map checking_loop checking_bindings fst snd].
  assert (obj_lookup catalog key = Some dataset) as Hkey.
  { apply (Hb (key, dataset)). apply elem_of_cons. by left. }
  rewrite (bind_run _ _ _ _ _ (dataSets_get_run _ _ _ w Hkey)).
  apply bind_ext. intros warning w1.
  rewrite (bind_run _ _ _ _ _ (dataSets_get_run _ _ _ w1 Hkey)).
  apply bind_ext. intros _ w2.
  apply IH. intros b Hin. apply Hb. apply elem_of_cons. by right.
Qed.

Lemma phases_bindings (catalog : obj string) (w : world) :
  NoDup (Object_keys catalog) ->
  caching_phase CACHE_DIRECTORY fetch_text Papa_parse JSON_stringify clock
    catalog w
  = bind (caching_bindings CACHE_DIRECTORY fetch_text Papa_parse
            JSON_stringify clock catalog)
         (fun _ => debugLog CACHE_DIRECTORY clock "File Caching finished"
                     None) w
  /\ checking_phase CACHE_DIRECTORY clock catalog w
     = bind (checking_bindings CACHE_DIRECTORY clock catalog [])
            (fun errors =>
               bind (debugLog CACHE_DIRECTORY clock "File Checking finished"
                       None)
                    (fun _ => ret errors)) w.
Proof.
  intros Hnd.
  assert (forall b, b ∈ catalog -> obj_lookup catalog (fst b) = Some (snd b))
    as Hb.
  { intros [k v] Hin. by apply obj_lookup_binding. }
  unfold caching_phase, checking_phase, Object_keys. split.
  - apply bind_ext2; [|done]. intros w0. by apply caching_loop_bindings.
  - apply bind_ext2; [|done]. intros w0. by apply checking_loop_bindings.
Qed.
Lemma is_Some_insert (m : gmap string string) path path' data :
  is_Some (m !! path') -> is_Some (<[path := data]> m !! path').
Proof.
  intros Hsome. rewrite lookup_insert_is_Some.
  destruct (decide (path = path')); auto.
Qed.

(** The caching loop when every request is answered with a sheet that
    converts. *)
Lemma caching_bindings_answered :
  forall (bindings : list (string * string)) (w : world),
  (forall b, b ∈ bindings -> served fetch_text Papa_parse b) ->
  exists w',
    caching_bindings CACHE_DIRECTORY fetch_text Papa_parse JSON_stringify
      clock bindings w = (inr tt, w')
    /\ requests (trace w')
       = requests (trace w) ++ map binding_url bindings
    /\ reads (trace w') = reads (trace w)
    /\ exits (trace w') = exits (trace w)
    /\ files_kept w w'
    /\ (forall b, b ∈ bindings ->
                  is_Some (files w' !! binding_csv CACHE_DIRECTORY b)).
Proof.
  unfold caching_bindings.
  induction bindings as [|b bindings IH]; intros w Hanswered.
  - exists w. simpl. rewrite app_nil_r.
    split; [done|]. split; [done|]. split; [done|]. split; [done|].
    split; [by intros path|]. by intros b ?%elem_of_nil.
  - destruct (Hanswered b) as (csv & geojson & Hcsv & Hgeojson);
      [apply elem_of_cons; by left|].
    cbn [for_of].
    erewrite bind_run.
    2:{ erewrite bind_run by (by eapply fetchAndCacheData_run).
        apply debugLog_run. }
    match goal with |- context [for_of bindings _ ?w2] =>
      destruct (IH w2) as (w' & Hrun & Hreq & Hread & Hexit & Hkept & Hcsvs)
    end.
    { intros b' Hb'. apply Hanswered. apply elem_of_cons. by right. }
    exists w'. split; [exact Hrun|].
    cbn [trace files] in Hreq, Hread, Hexit.
    rewrite !requests_app in Hreq. rewrite !reads_app in Hread.
    rewrite !exits_app in Hexit. cbn in Hreq, Hread, Hexit.
    rewrite !app_nil_r in Hread, Hexit. rewrite app_nil_r in Hreq.
    split; [by rewrite Hreq, <- app_assoc|]. split; [done|]. split; [done|].
    split.
    + intros path Hpath. apply Hkept. cbn [files].
      by do 4 apply is_Some_insert.
    + intros b' [->|Hb']%elem_of_cons; [|by apply Hcsvs].
      apply Hkept. cbn [files]. do 3 apply is_Some_insert.
      unfold binding_csv. rewrite lookup_insert_eq. by eexists.
Qed.

(** The checking loop when the [.csv] artifacts are there. *)
Lemma checking_bindings_present :
  forall (bindings : list (string * string)) errors (w : world),
  (forall b, b ∈ bindings ->
             is_Some (files w !! binding_csv CACHE_DIRECTORY b)) ->
  exists errors' w',
    checking_bindings CACHE_DIRECTORY clock bindings errors w
    = (inr errors', w')
    /\ requests (trace w') = requests (trace w)
    /\ reads (trace w')
       = reads (trace w) ++ map (binding_csv CACHE_DIRECTORY) bindings
    /\ exits (trace w') = exits (trace w)
    /\ files_kept w w'
    /\ length errors' = (length errors + length bindings)%nat.
Proof.
  induction bindings as [|b bindings IH]; intros errors w Hpresent.
  - exists errors, w. simpl. rewrite app_nil_r.
    split; [done|]. split; [done|]. split; [done|]. split; [done|].
    split; [by intros path | lia].
  - destruct (Hpresent b) as [data Hdata]; [apply elem_of_cons; by left|].
    cbn [checking_bindings].
    erewrite bind_run by (by apply verifyCleanData_run).
    erewrite bind_run by apply debugLog_run.
    match goal with |- context [checking_bindings _ _ bindings ?es ?w2] =>
      destruct (IH es w2)
        as (errors' & w' & Hrun & Hreq & Hread & Hexit & Hkept & Hlen)
    end.
    { intros b' Hb'. cbn [files]. apply is_Some_insert. apply Hpresent.
      apply elem_of_cons. by right. }
    exists errors', w'. split; [exact Hrun|].
    cbn [trace files] in Hreq, Hread, Hexit.
    rewrite !requests_app in Hreq. rewrite !reads_app in Hread.
    rewrite !exits_app in Hexit. cbn in Hreq, Hread, Hexit.
    rewrite !app_nil_r in Hreq, Hexit. rewrite app_nil_r in Hread.
    split; [done|]. split; [by rewrite Hread, <- app_assoc|].
    split; [done|]. split.
    + intros path Hpath. apply Hkept. cbn [files]. by apply is_Some_insert.
    + rewrite Hlen, length_app. simpl. lia.
Qed.

(** The batch when the run for one binding throws before it writes,
    after bindings that were served. *)
Lemma batch_stops (catalog before after : obj string)
    (key dataset : string) (e : js_error) (w : world) :
  NoDup (Object_keys catalog) ->
  catalog = before ++ (key, dataset) :: after ->
  (forall b, b ∈ before -> served fetch_text Papa_parse b) ->
  (forall w',
     fetchAndCacheData CACHE_DIRECTORY fetch_text Papa_parse JSON_stringify
       dataset (GOOGLESHEETURL +:+ key) w'
     = (inl e,
        {| files := files w';
           trace := trace w' ++ [Fetch (GOOGLESHEETURL +:+ key)] |})) ->
  let w' :=
    snd (batch CACHE_DIRECTORY fetch_text Papa_parse JSON_stringify clock
           stack_of catalog w) in
  requests (trace w')
  = requests (trace w) ++ map binding_url before
      ++ [GOOGLESHEETURL +:+ key]
  /\ reads (trace w') = reads (trace w)
  /\ exits (trace w') = exits (trace w) ++ [1%Z]
  /\ exists earlier,
       trace w' = earlier ++ [ConsoleError (error_message e); Exit 1].
Proof.
  intros Hnd -> Hserved Hthrow w'. subst w'.
  destruct (caching_bindings_answered before w Hserved)
    as (w1 & Hrun1 & Hreq1 & Hread1 & Hexit1 & Hkept1 & Hcsvs).
  unfold batch, try_catch.
  erewrite bind_throw.
  2:{ rewrite (proj1 (phases_bindings _ w Hnd)).
      apply bind_throw. unfold caching_bindings.
      eapply for_of_throw; [exact Hrun1|].
      apply bind_throw. apply Hthrow. }
  erewrite bind_run by apply debugLog_run.
  unfold bind, emit, modify. cbn [snd trace files].
  split; [|split; [|split]].
  - rewrite !requests_app. cbn. by rewrite !app_nil_r, Hreq1, <- app_assoc.
  - rewrite !reads_app. cbn. by rewrite !app_nil_r, Hread1.
  - rewrite !exits_app. cbn. by rewrite !app_nil_r, Hexit1.
  - match goal with |- exists earlier, (?t ++ [_]) ++ [_] = _ =>
      exists t; by rewrite <- app_assoc
    end.
Qed.
End Environment.

End BatchFacts.

(** ** More on the batch driver *)

Module BatchExtras.
Import JSString JSNumber JSObject Converter Effect Store Cache Examples.
Import Vocabulary JSObjectFacts JSStringFacts CacheFacts BatchFacts.

Section Environment.
Variable CACHE_DIRECTORY : string.
Variable fetch_text : string -> string + string.
Variable Papa_parse : string -> list (obj value).
Variable JSON_stringify : feature_collection -> nat -> string.
Variable clock : nat -> string.
Variable stack_of : js_error -> string.

Local Notation run_batch :=
  (batch CACHE_DIRECTORY fetch_text Papa_parse JSON_stringify clock
     stack_of).

(** X16. For every catalog, every server and every state of the files,
    no exception leaves the batch: a rejected request or a missing file
    ends in the handler, which logs and exits. *)
Theorem batch_catches_everything (catalog : obj string) (w : world) :
  fst (run_batch catalog w) = inr tt.
Proof.
  unfold batch, try_catch.
  match goal with |- context [match ?body w with _ => _ end] =>
    destruct (body w) as [[e|[]] w1]
  end; [|done].
  erewrite bind_run by apply debugLog_run. done.
Qed.

(** X17. For every catalog of distinct keys, when every request is
    answered with a sheet from which the converter returns a collection:
    the batch requests the tab of each binding, in the order of the
    catalog; then it reads the [.csv] artifact of each binding, in the
    same order, and finds each one; and it does not exit. *)
Theorem batch_all_answered (catalog : obj string) (w : world) :
  NoDup (Object_keys catalog) ->
  (forall b, b ∈ catalog -> served fetch_text Papa_parse b) ->
  requests (trace (snd (run_batch catalog w)))
  = requests (trace w) ++ map binding_url catalog
  /\ reads (trace (snd (run_batch catalog w)))
     = reads (trace w) ++ map (binding_csv CACHE_DIRECTORY) catalog
  /\ exits (trace (snd (run_batch catalog w))) = exits (trace w).
Proof.
  intros Hnd Hanswered.
  destruct (caching_bindings_answered CACHE_DIRECTORY fetch_text Papa_parse
              JSON_stringify clock catalog w Hanswered)
    as (w1 & Hrun1 & Hreq1 & Hread1 & Hexit1 & Hkept1 & Hcsvs).
  destruct (checking_bindings_present CACHE_DIRECTORY clock catalog []
              {| files :=
                   <[LOG_FILE CACHE_DIRECTORY :=
                       default "" (files w1 !! LOG_FILE CACHE_DIRECTORY)
                         +:+ log_line clock (length (trace w1))
                               "File Caching finished" None]> (files w1);
                 trace :=
                   trace w1
                     ++ [ Console (log_line clock (length (trace w1))
                                     "File Caching finished" None);
                          Append (LOG_FILE CACHE_DIRECTORY) ] |})
    as (errors & w2 & Hrun2 & Hreq2 & Hread2 & Hexit2 & Hkept2 & Hlen).
  { intros b Hb. cbn [files]. by apply is_Some_insert, Hcsvs. }
  unfold batch, try_catch.
  erewrite bind_run.
  2:{ rewrite (proj1 (phases_bindings CACHE_DIRECTORY fetch_text Papa_parse
                        JSON_stringify clock catalog w Hnd)).
      erewrite bind_run by exact Hrun1. apply debugLog_run. }
  erewrite bind_run.
  2:{ rewrite (proj2 (phases_bindings CACHE_DIRECTORY fetch_text Papa_parse
                        JSON_stringify clock catalog _ Hnd)).
      erewrite bind_run by exact Hrun2.
      erewrite bind_run by apply debugLog_run. reflexivity. }
  cbn [ret snd trace].
  cbn [trace] in Hreq2, Hread2, Hexit2.
  rewrite requests_app in *. rewrite reads_app in *. rewrite exits_app in *.
  cbn in *. rewrite !app_nil_r in *.
  split; [congruence|]. split; congruence.
Qed.

(** X18. For every catalog of distinct keys, when the requests of the
    bindings before one binding are answered with sheets that convert, and
    the request of that binding is rejected: the batch requests these tabs
    and no later one, reads no file, prints the message of the rejection
    on the error console and, last of all, exits with code 1. *)
Theorem batch_stops_at_rejection (catalog before after : obj string)
    (key dataset message : string) (w : world) :
  NoDup (Object_keys catalog) ->
  catalog = before ++ (key, dataset) :: after ->
  (forall b, b ∈ before -> served fetch_text Papa_parse b) ->
  fetch_text (GOOGLESHEETURL +:+ key) = inl message ->
  requests (trace (snd (run_batch catalog w)))
  = requests (trace w) ++ map binding_url before
      ++ [GOOGLESHEETURL +:+ key]
  /\ reads (trace (snd (run_batch catalog w))) = reads (trace w)
  /\ exits (trace (snd (run_batch catalog w))) = exits (trace w) ++ [1%Z]
  /\ exists earlier,
       trace (snd (run_batch catalog w))
       = earlier ++ [ConsoleError message; Exit 1].
Proof.
  intros Hnd Hcatalog Hserved Hrejected.
  apply (batch_stops CACHE_DIRECTORY fetch_text Papa_parse JSON_stringify
           clock stack_of catalog before after key dataset
           (FetchError message) w Hnd Hcatalog Hserved).
  intros w'. by apply fetchAndCacheData_rejected.
Qed.

(** X24. For every catalog of distinct keys, when the requests of the
    bindings before one binding are answered with sheets that convert, and
    the request of that binding is answered with a sheet on which the
    converter throws: the batch requests these tabs and no later one,
    reads no file, prints the message of the exception on the error
    console and, last of all, exits with code 1. *)
Theorem batch_stops_at_conversion (catalog before after : obj string)
    (key dataset csv : string) (e : js_error) (w : world) :
  NoDup (Object_keys catalog) ->
  catalog = before ++ (key, dataset) :: after ->
  (forall b, b ∈ before -> served fetch_text Papa_parse b) ->
  fetch_text (GOOGLESHEETURL +:+ key) = inr csv ->
  geojson_of Papa_parse dataset csv = inl e ->
  requests (trace (snd (run_batch catalog w)))
  = requests (trace w) ++ map binding_url before
      ++ [GOOGLESHEETURL +:+ key]
  /\ reads (trace (snd (run_batch catalog w))) = reads (trace w)
  /\ exits (trace (snd (run_batch catalog w))) = exits (trace w) ++ [1%Z]
  /\ exists earlier,
       trace (snd (run_batch catalog w))
       = earlier ++ [ConsoleError (error_message e); Exit 1].
Proof.
  intros Hnd Hcatalog Hserved Hfetch Hgeojson.
  apply (batch_stops CACHE_DIRECTORY fetch_text Papa_parse JSON_stringify
           clock stack_of catalog before after key dataset e w Hnd Hcatalog
           Hserved).
  intros w'. by apply (fetchAndCacheData_unconverted _ _ _ _ _ _ csv).
Qed.
End Environment.

Lemma dataSets_distinct : NoDup (Object_keys dataSets).
Proof.
  apply (bool_decide_unpack (NoDup (Object_keys dataSets))). vm_compute.
  exact I.
Defined.

Lemma demo_served (b : string * string) : served demo_fetch demo_parse b.
Proof.
  exists demo_sheet. eexists. split; [reflexivity|].
  apply geojson_of_plain, demo_parse_plain.
Defined.

Lemma batch_all_answered_witness :
  requests
    (trace (snd (batch demo_directory demo_fetch demo_parse demo_stringify
                   demo_clock demo_stack dataSets empty_world)))
  = requests (trace empty_world) ++ map binding_url dataSets
  /\ reads
       (trace (snd (batch demo_directory demo_fetch demo_parse
                      demo_stringify demo_clock demo_stack dataSets
                      empty_world)))
     = reads (trace empty_world) ++ map (binding_csv demo_directory) dataSets
  /\ exits
       (trace (snd (batch demo_directory demo_fetch demo_parse
                      demo_stringify demo_clock demo_stack dataSets
                      empty_world)))
     = exits (trace empty_world).
Proof.
  apply (batch_all_answered demo_directory demo_fetch demo_parse
           demo_stringify demo_clock demo_stack dataSets empty_world
           dataSets_distinct).
  intros b _. apply demo_served.
Defined.

Lemma batch_stops_at_rejection_witness :
  requests
    (trace (snd (batch demo_directory demo_flaky demo_parse demo_stringify
                   demo_clock demo_stack dataSets empty_world)))
  = requests (trace empty_world) ++ map binding_url [("0", "Boats")]
      ++ [GOOGLESHEETURL +:+ "36114476"]
  /\ reads
       (trace (snd (batch demo_directory demo_flaky demo_parse
                      demo_stringify demo_clock demo_stack dataSets
                      empty_world)))
     = reads (trace empty_world)
  /\ exits
       (trace (snd (batch demo_directory demo_flaky demo_parse
                      demo_stringify demo_clock demo_stack dataSets
                      empty_world)))
     = exits (trace empty_world) ++ [1%Z]
  /\ exists earlier,
       trace (snd (batch demo_directory demo_flaky demo_parse
                     demo_stringify demo_clock demo_stack dataSets
                     empty_world))
       = earlier ++ [ConsoleError "request failed"; Exit 1].
Proof.
  apply (batch_stops_at_rejection demo_directory demo_flaky demo_parse
           demo_stringify demo_clock demo_stack dataSets [("0", "Boats")]
           (drop 2 dataSets) "36114476" "Dam Levels" "request failed"
           empty_world dataSets_distinct eq_refl).
  - intros b ->%list_elem_of_singleton. exists demo_sheet. eexists.
    split; [reflexivity|]. apply geojson_of_plain, demo_parse_plain.
  - reflexivity.
Defined.

Lemma batch_stops_at_conversion_witness :
  requests
    (trace (snd (batch demo_directory demo_odd_fetch demo_odd_parse
                   demo_stringify demo_clock demo_stack dataSets
                   empty_world)))
  = requests (trace empty_world) ++ map binding_url [("0", "Boats")]
      ++ [GOOGLESHEETURL +:+ "36114476"]
  /\ reads
       (trace (snd (batch demo_directory demo_odd_fetch demo_odd_parse
                      demo_stringify demo_clock demo_stack dataSets
                      empty_world)))
     = reads (trace empty_world)
  /\ exits
       (trace (snd (batch demo_directory demo_odd_fetch demo_odd_parse
                      demo_stringify demo_clock demo_stack dataSets
                      empty_world)))
     = exits (trace empty_world) ++ [1%Z]
  /\ exists earlier,
       trace (snd (batch demo_directory demo_odd_fetch demo_odd_parse
                     demo_stringify demo_clock demo_stack dataSets
                     empty_world))
       = earlier ++ [ConsoleError "item.hasOwnProperty is not a function";
                     Exit 1].
Proof.
  apply (batch_stops_at_conversion demo_directory demo_odd_fetch
           demo_odd_parse demo_stringify demo_clock demo_stack dataSets
           [("0", "Boats")] (drop 2 dataSets) "36114476" "Dam Levels"
           "Latitude,Longitude,hasOwnProperty"
           (TypeError "item.hasOwnProperty is not a function")
           empty_world dataSets_distinct eq_refl).
  - intros b ->%list_elem_of_singleton. exists demo_sheet. eexists.
    split; reflexivity.
  - reflexivity.
  - reflexivity.
Defined.

End BatchExtras.

(** ** What every step of the batch driver keeps *)

Module WorldInvariant.
Import JSString JSNumber JSObject Converter Effect Store Cache Examples.
Import Vocabulary JSStringFacts CacheFacts BatchFacts.

Section Relation.
Variable CACHE_DIRECTORY : string.
Variable R : world -> world -> Prop.
(** The paths a [writeFileSync] may take. *)
Variable safe : string -> Prop.

Hypothesis R_refl : forall w, R w w.
Hypothesis R_trans : forall w1 w2 w3, R w1 w2 -> R w2 w3 -> R w1 w3.
Hypothesis R_emit : forall w e,
  R w {| files := files w; trace := trace w ++ [e] |}.
Hypothesis R_write : forall w path data,
  safe path ->
  R w {| files := <[path := data]> (files w);
         trace := trace w ++ [Write path] |}.
Hypothesis R_append : forall w data,
  R w {| files :=
           <[LOG_FILE CACHE_DIRECTORY :=
               default "" (files w !! LOG_FILE CACHE_DIRECTORY) +:+ data]>
             (files w);
         trace := trace w ++ [Append (LOG_FILE CACHE_DIRECTORY)] |}.
Hypothesis artifacts_safe : forall dataset path,
  path ∈ artifact_paths CACHE_DIRECTORY dataset -> safe path.

Lemma preserves_ret {A : Type} (a : A) : preserves R (ret a).
Proof. intros w. apply R_refl. Qed.

Lemma preserves_throw {A : Type} (e : js_error) :
  preserves R (throw (A := A) e).
Proof. intros w. apply R_refl. Qed.

Lemma preserves_bind {A B : Type} (m : M world A) (k : A -> M world B) :
  preserves R m -> (forall a, preserves R (k a)) -> preserves R (bind m k).
Proof.
  intros Hm Hk w. unfold bind. specialize (Hm w).
  destruct (m w) as [[e|a] w1]; simpl in *; [done|].
  eapply R_trans; [exact Hm | apply Hk].
Qed.

Lemma preserves_try_catch {A : Type} (m : M world A)
    (handler : js_error -> M world A) :
  preserves R m -> (forall e, preserves R (handler e)) ->
  preserves R (try_catch m handler).
Proof.
  intros Hm Hh w. unfold try_catch. specialize (Hm w).
  destruct (m w) as [[e|a] w1]; simpl in *; [|done].
  eapply R_trans; [exact Hm | apply Hh].
Qed.

Lemma preserves_for_of {A : Type} (xs : list A) (body : A -> M world unit) :
  (forall x, preserves R (body x)) -> preserves R (for_of xs body).
Proof.
  intros Hbody. induction xs as [|x xs IH]; simpl.
  - apply preserves_ret.
  - apply preserves_bind; [apply Hbody | by intros _].
Qed.

Lemma preserves_emit e : preserves R (emit e).
Proof. intros w. apply R_emit. Qed.

Lemma preserves_get_state : preserves R get_state.
Proof. intros w. apply R_refl. Qed.

Lemma preserves_writeFileSync path data :
  safe path -> preserves R (writeFileSync path data).
Proof. intros Hsafe w. by apply R_write. Qed.

Section Environment.
Variable fetch_text : string -> string + string.
Variable Papa_parse : string -> list (obj value).
Variable JSON_stringify : feature_collection -> nat -> string.
Variable clock : nat -> string.
Variable stack_of : js_error -> string.

Lemma preserves_debugLog message data :
  preserves R (debugLog CACHE_DIRECTORY clock message data).
Proof.
  intros w. rewrite debugLog_run. cbn [snd].
  set (line := log_line clock (length (trace w)) message data).
  eapply R_trans; [apply (R_emit w (Console line))|].
  pose proof (R_append {| files := files w;
                          trace := trace w ++ [Console line] |} line) as H.
  cbn [files trace] in H. by rewrite <- app_assoc in H.
Qed.

Lemma preserves_fetchAndCacheData dataset url :
  preserves R
    (fetchAndCacheData CACHE_DIRECTORY fetch_text Papa_parse JSON_stringify
       dataset url).
Proof.
  unfold fetchAndCacheData, fetch.
  apply preserves_bind.
  { apply preserves_bind; [apply preserves_emit|]. intros _.
    destruct (fetch_text url); [apply preserves_throw | apply preserves_ret]. }
  intros csv.
  apply preserves_bind.
  { unfold rethrow. destruct (geojson_of Papa_parse dataset csv);
      [apply preserves_throw | apply preserves_ret]. }
  intros geojson.
  apply preserves_bind;
    [apply preserves_writeFileSync, (artifacts_safe dataset);
     unfold artifact_paths; set_solver|].
  intros _.
  apply preserves_bind;
    [apply preserves_writeFileSync, (artifacts_safe dataset);
     unfold artifact_paths; set_solver|].
  intros _.
  apply preserves_writeFileSync, (artifacts_safe dataset).
  unfold artifact_paths. set_solver.
Qed.

Lemma preserves_verifyCleanData filename :
  preserves R (verifyCleanData filename).
Proof.
  unfold verifyCleanData, readFileSync.
  apply preserves_bind.
  { apply preserves_bind; [apply preserves_emit|]. intros _.
    apply preserves_bind; [apply preserves_get_state|]. intros w.
    destruct (files w !! filename);
      [apply preserves_ret | apply preserves_throw]. }
  intros data.
  destruct (includes data "#REF!"); [apply preserves_ret|].
  destruct (includes data "Loading"); apply preserves_ret.
Qed.

Lemma preserves_dataSets_get (catalog : obj string) key :
  preserves R (dataSets_get catalog key).
Proof.
  unfold dataSets_get.
  destruct (obj_lookup catalog key);
    [apply preserves_ret | apply preserves_throw].
Qed.

Lemma preserves_checking_loop (catalog : obj string) keys : forall errors,
  preserves R (checking_loop CACHE_DIRECTORY clock catalog keys errors).
Proof.
  induction keys as [|key keys IH]; intros errors; simpl.
  - apply preserves_ret.
  - apply preserves_bind; [apply preserves_dataSets_get|]. intros dataset.
    apply preserves_bind; [apply preserves_verifyCleanData|]. intros warning.
    apply preserves_bind; [apply preserves_dataSets_get|]. intros dataset'.
    apply preserves_bind; [apply preserves_debugLog|]. intros _. apply IH.
Qed.

(** Every run of the batch, to its end or into the handler. *)
Lemma preserves_batch (catalog : obj string) :
  preserves R
    (batch CACHE_DIRECTORY fetch_text Papa_parse JSON_stringify clock
       stack_of catalog).
Proof.
  unfold batch. apply preserves_try_catch.
  - apply preserves_bind.
    { unfold caching_phase. apply preserves_bind;
        [|intros _; apply preserves_debugLog].
      apply preserves_for_of. intros key.
      apply preserves_bind; [apply preserves_dataSets_get|]. intros dataset.
      apply preserves_bind; [apply preserves_fetchAndCacheData|]. intros _.
      apply preserves_bind; [apply preserves_dataSets_get|]. intros dataset'.
      apply preserves_debugLog. }
    intros _. apply preserves_bind; [|intros _; apply preserves_ret].
    unfold checking_phase.
    apply preserves_bind; [apply preserves_checking_loop|]. intros errors.
    apply preserves_bind; [apply preserves_debugLog|]. intros _.
    apply preserves_ret.
  - intros e.
    apply preserves_bind; [apply preserves_debugLog|]. intros _.
    apply preserves_bind; [apply preserves_emit|]. intros _.
    apply preserves_emit.
Qed.
End Environment.
End Relation.

Lemma last_char_app (s t : string) :
  t <> "" -> last_char (s +:+ t) = last_char t.
Proof.
  intros Ht. induction s as [|c s IH]; [done|].
  rewrite append_cons. cbn [last_char].
  destruct (s +:+ t) eqn:Hst; [|done].
  destruct s; [done | by rewrite append_cons in Hst].
Qed.

(** No artifact is the log file. *)
Lemma artifact_not_log CACHE_DIRECTORY dataset path :
  path ∈ artifact_paths CACHE_DIRECTORY dataset ->
  path <> LOG_FILE CACHE_DIRECTORY.
Proof.
  unfold artifact_paths, LOG_FILE. intros Hpath Heq.
  apply (f_equal last_char) in Heq.
  rewrite (last_char_app CACHE_DIRECTORY "debug-log.txt") in Heq by done.
  repeat (apply elem_of_cons in Hpath as [->|Hpath];
          [by rewrite last_char_app in Heq|]).
  by apply elem_of_nil in Hpath.
Qed.

End WorldInvariant.

(** ** More on a whole run of the script *)

Module ScriptExtras.
Import JSString JSNumber JSObject Converter Effect Cache Examples Vocabulary.
Import JSStringFacts CacheFacts BatchFacts WorldInvariant.

Lemma files_kept_refl w : files_kept w w.
Proof. by intros path. Qed.

Lemma files_kept_trans w1 w2 w3 :
  files_kept w1 w2 -> files_kept w2 w3 -> files_kept w1 w3.
Proof. intros H12 H23 path Hpath. by apply H23, H12. Qed.

Lemma log_begins_trans log head w1 w2 w3 :
  log_begins log head w1 w2 -> log_begins log head w2 w3 ->
  log_begins log head w1 w3.
Proof. intros H12 H23 Hw1. by apply H23, H12. Qed.

Section Environment.
Variable CACHE_DIRECTORY : string.
Variable fetch_text : string -> string + string.
Variable Papa_parse : string -> list (obj value).
Variable JSON_stringify : feature_collection -> nat -> string.
Variable clock : nat -> string.
Variable stack_of : js_error -> string.

Local Notation LOG := (LOG_FILE CACHE_DIRECTORY).
Local Notation run_script :=
  (script CACHE_DIRECTORY fetch_text Papa_parse JSON_stringify clock
     stack_of).

Lemma batch_keeps_files (catalog : obj string) :
  preserves files_kept
    (batch CACHE_DIRECTORY fetch_text Papa_parse JSON_stringify clock
       stack_of catalog).
Proof.
  apply (preserves_batch CACHE_DIRECTORY files_kept (fun _ => True)).
  - apply files_kept_refl.
  - apply files_kept_trans.
  - by intros w e path.
  - intros w path data _ path' Hpath'. by apply is_Some_insert.
  - intros w data path' Hpath'. by apply is_Some_insert.
  - done.
Qed.

Lemma batch_keeps_log_head (head : string) (catalog : obj string) :
  preserves (log_begins LOG head)
    (batch CACHE_DIRECTORY fetch_text Papa_parse JSON_stringify clock
       stack_of catalog).
Proof.
  apply (preserves_batch CACHE_DIRECTORY (log_begins LOG head)
           (fun path => path <> LOG)).
  - by intros w Hw.
  - apply log_begins_trans.
  - by intros w e Hw.
  - intros w path data Hpath [more Hmore]. exists more. cbn [files].
    by rewrite lookup_insert_ne.
  - intros w data [more Hmore]. exists (more +:+ data). cbn [files].
    by rewrite lookup_insert_eq, Hmore, <- append_assoc.
  - apply artifact_not_log.
Qed.

Lemma startup_run (w : world) :
  startup CACHE_DIRECTORY clock w
  = (inr tt,
     {| files :=
          <[LOG := log_line clock (S (length (trace w)))
                     "Debug logging initialized" None]>
            (<[LOG := ""]> (files w));
        trace :=
          trace w ++ [ Write LOG;
                       Console (log_line clock (S (length (trace w)))
                                  "Debug logging initialized" None);
                       Append LOG ] |}).
Proof.
  unfold startup. erewrite bind_run by reflexivity.
  rewrite debugLog_run. cbn [files trace].
  rewrite lookup_insert_eq, length_app, Nat.add_1_r, <- app_assoc. done.
Qed.

(** X19. For every server and every state of the files, whether the
    batch runs or not and however it ends: a file that is there before
    the script runs is there after it. The script creates and rewrites
    files, and removes none. *)
Theorem script_removes_no_file (executed_directly : bool) (w : world) :
  files_kept w (snd (run_script executed_directly w)).
Proof.
  unfold script. erewrite bind_run by apply startup_run.
  match goal with |- files_kept _ (snd (_ ?w0)) =>
    apply (files_kept_trans w w0)
  end.
  - intros path Hpath. cbn [files]. by do 2 apply is_Some_insert.
  - destruct executed_directly; [apply batch_keeps_files|].
    apply files_kept_refl.
Qed.

(** X20. For every server and every state of the files, whatever the log
    file held before: after the script has run, the log file begins with
    the entry [Debug logging initialized] of this run. The start empties
    the log, and everything after it only appends to the log. *)
Theorem log_holds_this_run (executed_directly : bool) (w : world) :
  exists more,
    files (snd (run_script executed_directly w)) !! LOG
    = Some (log_line clock (S (length (trace w)))
              "Debug logging initialized" None +:+ more).
Proof.
  unfold script. erewrite bind_run by apply startup_run.
  destruct executed_directly.
  - apply batch_keeps_log_head. exists "". cbn [files].
    by rewrite lookup_insert_eq, append_nil_r.
  - exists "". cbn [ret snd files].
    by rewrite lookup_insert_eq, append_nil_r.
Qed.
(** X21. For every catalog and every state of the files, the checking
    phase changes no file but the log, whether it finds markers, misses a
    file, or goes through: what it reads stays as it is. *)
Theorem checking_changes_only_log (catalog : obj string) (w : world) :
  others_unchanged LOG w
    (snd (checking_phase CACHE_DIRECTORY clock catalog w)).
Proof.
  revert w.
  assert (forall w1 w2 w3, others_unchanged LOG w1 w2 ->
            others_unchanged LOG w2 w3 -> others_unchanged LOG w1 w3)
    as Htrans.
  { intros w1 w2 w3 H12 H23 path Hpath.
    by rewrite (H23 path Hpath), (H12 path Hpath). }
  assert (forall w e,
            others_unchanged LOG w
              {| files := files w; trace := trace w ++ [e] |}) as Hemit.
  { by intros w e path Hpath. }
  assert (forall w data,
            others_unchanged LOG w
              {| files := <[LOG := default "" (files w !! LOG) +:+ data]>
                            (files w);
                 trace := trace w ++ [Append LOG] |}) as Happend.
  { intros w data path Hpath. cbn [files]. by rewrite lookup_insert_ne. }
  assert (forall w, others_unchanged LOG w w) as Hrefl by done.
  unfold checking_phase.
  apply (preserves_bind (others_unchanged LOG) Htrans).
  - by apply (preserves_checking_loop CACHE_DIRECTORY).
  - intros errors. apply (preserves_bind (others_unchanged LOG) Htrans).
    + by apply (preserves_debugLog CACHE_DIRECTORY).
    + intros _. by apply preserves_ret.
Qed.
End Environment.

End ScriptExtras.
